(** * Vers integration MCP server: a shallow embedding of [scripts/mcp-server.ts]

    The tool handlers of the server are asynchronous JavaScript functions that
    drive an external command line ([vers ...], [npm test], user hooks) through
    [child_process.exec].  They are embedded here as follows.

    - A handler body (an [async] function) is a value of the free monad
      [task]: a tree whose nodes are the effects the body performs and whose
      continuations receive what the effect answers.  [await execAsync(cmd)]
      is the node [Exec cmd k]; it is the only suspension point that matters
      for interleaving.
    - The outside world (what each command answers, the clock, the YAML
      library, the order in which concurrent commands settle) is an [env]
      record; every theorem quantifies over it.
    - [run] gives [await t] its meaning: the task is driven to completion and
      every command leaves two events in the log, [Issued] when the child
      process is spawned and [Settled] when its promise settles.
    - [promise_all] gives [await Promise.all(xs.map(f))] its meaning: every
      task is first run up to its first suspension (this is what [map] does),
      then pending commands settle in the order the environment's schedule
      dictates.

    JavaScript objects used as string-keyed maps are association lists kept
    in the object's own-key enumeration order ([Object.keys]); only own
    properties are modelled.

    The file has three parts: the embedding of the server, section by
    section as in the source; the vocabulary of the statements and the sample
    projects; the properties. *)

From Stdlib Require Import List String Ascii ZArith Lia Bool DecimalString FinFun.
Import ListNotations.
Local Open Scope list_scope.
Local Open Scope string_scope.

Set Implicit Arguments.
Set Warnings "-register-all".

(* ------------------------------------------------------------------------ *)
(** ** JavaScript values and idioms *)

Module Js.

  (** The double-quote character, needed inside command lines. *)
Definition dq : string := String (ascii_of_nat 34) EmptyString.

  (** The line feed, needed in [vers.toml]. *)
Definition nl : string := String (ascii_of_nat 10) EmptyString.

  (** [`${n}`] for an integral number [n] (below 1e21 JavaScript prints every
      digit). *)
Definition str_of_Z (z : Z) : string := NilZero.string_of_int (Z.to_int z).

  (** Truthiness of a string: only the empty string is falsy. *)
Definition truthy (s : string) : bool := negb (s =? "").

  (** Truthiness of an optional string ([undefined] is falsy). *)
Definition truthy_opt (o : option string) : bool :=
    match o with
    | Some s => truthy s
    | None => false
    end.

  (** [o || d] on an optional string. *)
Definition or_else (o : option string) (d : string) : string :=
    match o with
    | Some s => if truthy s then s else d
    | None => d
    end.

  (** [a || b] on two strings. *)
Definition or_str (a b : string) : string := if truthy a then a else b.

  (** [n || d] on an optional integral number: [undefined] and [0] are falsy. *)
Definition or_num (o : option Z) (d : Z) : Z :=
    match o with
    | Some n => if (n =? 0)%Z then d else n
    | None => d
    end.

  (** [b] used as a condition when [b] is an optional boolean. *)
Definition flag (o : option bool) : bool :=
    match o with
    | Some b => b
    | None => false
    end.

  (** [s.includes(sub)]. *)
Fixpoint includes (s sub : string) : bool :=
    prefix sub s ||
    match s with
    | EmptyString => false
    | String _ s' => includes s' sub
    end.

  (** [xs.includes(x)] on an array of strings. *)
Definition mem (xs : list string) (x : string) : bool :=
    existsb (String.eqb x) xs.

  (** [s.split("@")[0]]: the part before the first [@]. *)
Fixpoint before_at (s : string) : string :=
    match s with
    | EmptyString => EmptyString
    | String c s' =>
        if Ascii.eqb c "@"%char then EmptyString else String c (before_at s')
    end.

  (** [xs.join(sep)]. *)
Definition join (sep : string) (xs : list string) : string :=
    String.concat sep xs.

Section Objects.
Variable V : Type.

    (** A string-keyed object: its own properties in enumeration order. *)
Definition obj := list (string * V).

    (** [o[k]], [None] standing for [undefined]. *)
Fixpoint get (k : string) (o : obj) : option V :=
      match o with
      | [] => None
      | (k', v) :: o' => if k =? k' then Some v else get k o'
      end.

    (** [o[k] = v]: an existing property keeps its place, a new one goes
        last. *)
Fixpoint set (k : string) (v : V) (o : obj) : obj :=
      match o with
      | [] => [(k, v)]
      | (k', v') :: o' =>
          if k =? k' then (k', v) :: o' else (k', v') :: set k v o'
      end.

    (** [Object.keys(o)]. *)
Definition keys (o : obj) : list string := map fst o.

    (** [{...a, ...b}]. *)
Definition spread (a b : obj) : obj :=
      fold_left (fun acc kv => set (fst kv) (snd kv) acc) b a.

    (** [{...a}] where [a] may be [undefined]. *)
Definition spread_opt (a : option obj) : obj :=
      match a with
      | Some o => o
      | None => []
      end.
End Objects.

  (** Free-form configuration data ([Record<string, any>]). *)
Inductive value : Type :=
  | Num (n : Z)
  | Str (s : string)
  | Arr (items : list value)
  | Obj (fields : list (string * value)).

End Js.

(* ------------------------------------------------------------------------ *)
(** ** The manifest: the interfaces of the TYPES section *)

Module HealthCheck.
Record t := mk {
    command : string;
    interval : option string;
    timeout : option string;
    retries : option Z
  }.
End HealthCheck.

Module Resources.
Record t := mk {
    memory : option string;
    cpu : option Z;
    storage : option string
  }.
End Resources.

Module ServiceConfig.
Record t := mk {
    template : string;
    config : option (Js.obj Js.value);
    depends_on : option (list string);
    healthcheck : option HealthCheck.t;
    resources : option Resources.t
  }.

  (** [svcConfig.template = tpl]. *)
Definition set_template (tpl : string) (c : t) : t :=
    mk tpl (config c) (depends_on c) (healthcheck c) (resources c).
End ServiceConfig.

Module TestBranch.
Record t := mk {
    name : string;
    env : option (Js.obj string);
    before : option string;
    after : option string
  }.
End TestBranch.

Module TestSuite.
Record t := mk {
    command : string;
    parallel : option bool;
    depends_on : option (list string);
    branches : option (list TestBranch.t);
    env : option (Js.obj string)
  }.
End TestSuite.

Module Checkpoint.
Record t := mk {
    name : string;
    after : string;
    description : option string
  }.
End Checkpoint.

Module DeployConfig.
Record t := mk {
    target : string;
    domain : option string;
    resources : option (option string * option Z);
    scaling : option (option Z * option Z * option Z);
    auto_deploy : option (string * string)
  }.
End DeployConfig.

Module Vm.
Record t := mk {
    memory_mib : Z;
    vcpu : Z;
    storage_mib : Z
  }.
End Vm.

Module IntegrationManifest.
Record t := mk {
    name : string;
    version : string;
    description : option string;
    vm : Vm.t;
    services : Js.obj ServiceConfig.t;
    tests : option (Js.obj TestSuite.t);
    checkpoints : option (list Checkpoint.t);
    matrix : option (Js.obj (list string));
    deploy : option (Js.obj DeployConfig.t)
  }.

Definition set_services (s : Js.obj ServiceConfig.t) (m : t) : t :=
    mk (name m) (version m) (description m) (vm m) s (tests m)
       (checkpoints m) (matrix m) (deploy m).
End IntegrationManifest.

Module Status.
Inductive t : Type := passed | failed | skipped | error.

Definition eqb (a b : t) : bool :=
  match a, b with
  | passed, passed | failed, failed | skipped, skipped | error, error => true
  | _, _ => false
  end.
End Status.

Module TestResult.
Record t := mk {
    suite : string;
    branch : string;
    status : Status.t;
    duration_ms : Z;
    output : option string;
    error : option string
  }.
End TestResult.

(* ------------------------------------------------------------------------ *)
(** ** Asynchronous function bodies as effect trees *)

(** What [execAsync] resolves to. *)
Record Output := mkOutput { stdout : string; stderr : string }.

(** How the promise of [execAsync(cmd)] settles: it is rejected (with an
    error carrying [message]) when the child process exits with a non-zero
    code or cannot be spawned. *)
Inductive ExecResult : Type :=
| Resolved (out : Output)
| Rejected (message : string).

(** The body of an [async] function.  [Exec] is [await execAsync(cmd)];
    [Throw] is a thrown exception, that is, a rejected promise; the file
    system and YAML nodes are the calls into [fs/promises] and [yaml];
    [Bind_manifest], [Deref] and [Assign_template] are accesses to the object
    held by the handler's [manifest] constant. *)
Inductive task (A : Type) : Type :=
| Ret (a : A)
| Throw (message : string)
| Exec (cmd : string) (k : ExecResult -> task A)
| DateNow (k : Z -> task A)
| ReadFile (path : string) (k : option string -> task A)
| WriteFile (path content : string) (k : task A)
| Mkdir (path : string) (k : task A)
| YamlParse (content : string) (k : option IntegrationManifest.t -> task A)
| YamlStringify (m : IntegrationManifest.t) (k : string -> task A)
| Bind_manifest (m : IntegrationManifest.t) (k : task A)
| Deref (k : option IntegrationManifest.t -> task A)
| Assign_template (service tpl : string) (k : task A).

Arguments Ret {A} a.
Arguments Throw {A} message.
Arguments Exec {A} cmd k.
Arguments DateNow {A} k.
Arguments ReadFile {A} path k.
Arguments WriteFile {A} path content k.
Arguments Mkdir {A} path k.
Arguments YamlParse {A} content k.
Arguments YamlStringify {A} m k.
Arguments Bind_manifest {A} m k.
Arguments Deref {A} k.
Arguments Assign_template {A} service tpl k.

(** Sequencing: [const x = await t; k(x)]. *)
Fixpoint bind {A B : Type} (t : task A) (f : A -> task B) : task B :=
  match t with
  | Ret a => f a
  | Throw e => Throw e
  | Exec c k => Exec c (fun r => bind (k r) f)
  | DateNow k => DateNow (fun n => bind (k n) f)
  | ReadFile p k => ReadFile p (fun r => bind (k r) f)
  | WriteFile p c k => WriteFile p c (bind k f)
  | Mkdir p k => Mkdir p (bind k f)
  | YamlParse c k => YamlParse c (fun r => bind (k r) f)
  | YamlStringify m k => YamlStringify m (fun r => bind (k r) f)
  | Bind_manifest m k => Bind_manifest m (bind k f)
  | Deref k => Deref (fun r => bind (k r) f)
  | Assign_template s tpl k => Assign_template s tpl (bind k f)
  end.

(** [try { t } catch (error) { h(error.message) }]. *)
Fixpoint try_catch {A : Type} (t : task A) (h : string -> task A) : task A :=
  match t with
  | Ret a => Ret a
  | Throw e => h e
  | Exec c k => Exec c (fun r => try_catch (k r) h)
  | DateNow k => DateNow (fun n => try_catch (k n) h)
  | ReadFile p k => ReadFile p (fun r => try_catch (k r) h)
  | WriteFile p c k => WriteFile p c (try_catch k h)
  | Mkdir p k => Mkdir p (try_catch k h)
  | YamlParse c k => YamlParse c (fun r => try_catch (k r) h)
  | YamlStringify m k => YamlStringify m (fun r => try_catch (k r) h)
  | Bind_manifest m k => Bind_manifest m (try_catch k h)
  | Deref k => Deref (fun r => try_catch (k r) h)
  | Assign_template s tpl k => Assign_template s tpl (try_catch k h)
  end.

Declare Scope task_scope.
Delimit Scope task_scope with task.
Bind Scope task_scope with task.

Notation "x <- t ;; k" := (bind t (fun x => k))
  (at level 61, t at next level, right associativity) : task_scope.
Notation "' p <- t ;; k" := (bind t (fun p => k))
  (at level 61, p pattern, t at next level, right associativity) : task_scope.
Notation "t ;; k" := (bind t (fun _ => k))
  (at level 61, right associativity) : task_scope.

Local Open Scope task_scope.

(* ------------------------------------------------------------------------ *)
(** ** The world a handler runs in *)

Inductive event : Type :=
| Issued (cmd : string)
| Settled (cmd : string) (r : ExecResult)
| Wrote (path content : string)
| MadeDir (path : string).

(** Everything the server does not decide.  The answers may depend on all
    that happened before (the log). *)
Record env := mkEnv {
  exec_reply : list event -> string -> ExecResult;
  date_now : list event -> Z;
  yaml_parse : string -> option IntegrationManifest.t;
  yaml_stringify : IntegrationManifest.t -> string;
  (** the order in which the pending commands of concurrent tasks settle:
      indices into the array given to [Promise.all] *)
  settle_order : list nat
}.

Record world := mkWorld {
  environment : env;
  files : Js.obj string;
  dirs : list string;
  (** the object the running handler's [manifest] constant refers to *)
  manifest_obj : option IntegrationManifest.t;
  log : list event
}.

Definition record (e : event) (w : world) : world :=
  mkWorld (environment w) (files w) (dirs w) (manifest_obj w) (log w ++ [e])%list.

Definition write_file (path content : string) (w : world) : world :=
  mkWorld (environment w) (Js.set path content (files w)) (dirs w)
          (manifest_obj w) (log w ++ [Wrote path content])%list.

Definition make_dir (path : string) (w : world) : world :=
  mkWorld (environment w) (files w) (dirs w ++ [path])%list
          (manifest_obj w) (log w ++ [MadeDir path]).

Definition bind_manifest (m : IntegrationManifest.t) (w : world) : world :=
  mkWorld (environment w) (files w) (dirs w) (Some m) (log w).

(** [manifest.services[service].template = tpl], when the service exists. *)
Definition retemplate (service tpl : string) (m : IntegrationManifest.t)
  : IntegrationManifest.t :=
  match Js.get service (IntegrationManifest.services m) with
  | Some c =>
      IntegrationManifest.set_services
        (Js.set service (ServiceConfig.set_template tpl c)
                (IntegrationManifest.services m)) m
  | None => m
  end.

Definition assign_template (service tpl : string) (w : world) : world :=
  mkWorld (environment w) (files w) (dirs w)
          (option_map (retemplate service tpl) (manifest_obj w)) (log w).

Inductive outcome (A : Type) : Type :=
| Returned (a : A)
| Threw (message : string).

Arguments Returned {A} a.
Arguments Threw {A} message.

(** [await t]: the task runs to completion, nothing else runs meanwhile. *)
Fixpoint run {A : Type} (t : task A) (w : world) : world * outcome A :=
  match t with
  | Ret a => (w, Returned a)
  | Throw e => (w, Threw e)
  | Exec c k =>
      let w1 := record (Issued c) w in
      let r := exec_reply (environment w1) (log w1) c in
      run (k r) (record (Settled c r) w1)
  | DateNow k => run (k (date_now (environment w) (log w))) w
  | ReadFile p k => run (k (Js.get p (files w))) w
  | WriteFile p c k => run k (write_file p c w)
  | Mkdir p k => run k (make_dir p w)
  | YamlParse c k => run (k (yaml_parse (environment w) c)) w
  | YamlStringify m k => run (k (yaml_stringify (environment w) m)) w
  | Bind_manifest m k => run k (bind_manifest m w)
  | Deref k => run (k (manifest_obj w)) w
  | Assign_template s tpl k => run k (assign_template s tpl w)
  end.

(** *** Concurrent tasks: [Promise.all(xs.map(f))] *)

(** Calling an [async] function runs its body synchronously up to the first
    [await] on a pending promise: the command is spawned ([Issued]) and the
    task is left waiting at that node. *)
Fixpoint advance {A : Type} (t : task A) (w : world) : world * task A :=
  match t with
  | Ret a => (w, Ret a)
  | Throw e => (w, Throw e)
  | Exec c k => (record (Issued c) w, Exec c k)
  | DateNow k => advance (k (date_now (environment w) (log w))) w
  | ReadFile p k => advance (k (Js.get p (files w))) w
  | WriteFile p c k => advance k (write_file p c w)
  | Mkdir p k => advance k (make_dir p w)
  | YamlParse c k => advance (k (yaml_parse (environment w) c)) w
  | YamlStringify m k => advance (k (yaml_stringify (environment w) m)) w
  | Bind_manifest m k => advance k (bind_manifest m w)
  | Deref k => advance (k (manifest_obj w)) w
  | Assign_template s tpl k => advance k (assign_template s tpl w)
  end.

(** The pending command of a waiting task settles; the task resumes and runs
    up to its next suspension. *)
Definition settle {A : Type} (t : task A) (w : world) : world * task A :=
  match t with
  | Exec c k =>
      let r := exec_reply (environment w) (log w) c in
      advance (k r) (record (Settled c r) w)
  | _ => (w, t)
  end.

(** A waiting task is awaited to its end with nothing else running. *)
Definition finish {A : Type} (t : task A) (w : world) : world * outcome A :=
  match t with
  | Exec c k =>
      let r := exec_reply (environment w) (log w) c in
      run (k r) (record (Settled c r) w)
  | _ => run t w
  end.

(** [xs.map(f)]: the tasks are started one after the other. *)
Fixpoint start_all {A : Type} (ts : list (task A)) (w : world)
  : world * list (task A) :=
  match ts with
  | [] => (w, [])
  | t :: ts' =>
      let (w1, t1) := advance t w in
      let (w2, ts1) := start_all ts' w1 in
      (w2, t1 :: ts1)
  end.

(** The first rejected promise of the array, if any. *)
Fixpoint first_rejection {A : Type} (ts : list (task A)) : option string :=
  match ts with
  | [] => None
  | Throw e :: _ => Some e
  | _ :: ts' => first_rejection ts'
  end.

Fixpoint replace_nth {A : Type} (i : nat) (x : A) (l : list A) : list A :=
  match l, i with
  | [], _ => []
  | _ :: l', O => x :: l'
  | y :: l', S i' => y :: replace_nth i' x l'
  end.

(** Pending commands settle in the order given by the schedule, until
    [Promise.all] itself settles (one promise rejected) or the schedule is
    used up. *)
Fixpoint settle_in_order {A : Type} (order : list nat) (ts : list (task A))
    (w : world) : world * list (task A) :=
  match order with
  | [] => (w, ts)
  | i :: order' =>
      match first_rejection ts with
      | Some _ => (w, ts)
      | None =>
          match nth_error ts i with
          | Some t =>
              let (w1, t1) := settle t w in
              settle_in_order order' (replace_nth i t1 ts) w1
          | None => settle_in_order order' ts w
          end
      end
  end.

(** What is still pending after the schedule is used up completes task by
    task, in array order, up to the first rejection. *)
Fixpoint drain {A : Type} (ts : list (task A)) (w : world)
  : world * outcome (list A) :=
  match ts with
  | [] => (w, Returned [])
  | t :: ts' =>
      match first_rejection (t :: ts') with
      | Some e => (w, Threw e)
      | None =>
          match finish t w with
          | (w1, Threw e) => (w1, Threw e)
          | (w1, Returned a) =>
              match drain ts' w1 with
              | (w2, Returned l) => (w2, Returned (a :: l))
              | (w2, Threw e) => (w2, Threw e)
              end
          end
      end
  end.

(** [await Promise.all(ts)]: fulfilled with the values in array order when
    every task returns, rejected as soon as one task throws. *)
Definition promise_all {A : Type} (ts : list (task A)) (w : world)
  : world * outcome (list A) :=
  let (w1, ts1) := start_all ts w in
  let (w2, ts2) := settle_in_order (settle_order (environment w)) ts1 w1 in
  drain ts2 w2.

(** *** Handlers *)

(** A tool handler: from the world it is invoked in to the world it leaves
    and what its promise settles to. *)
Definition handler (A : Type) : Type := world -> world * outcome A.

Definition await {A : Type} (t : task A) : handler A := run t.

Definition and_then {A B : Type} (h : handler A) (f : A -> handler B)
  : handler B :=
  fun w =>
    match h w with
    | (w1, Returned a) => f a w1
    | (w1, Threw e) => (w1, Threw e)
    end.

Definition reply {A : Type} (a : A) : handler A := fun w => (w, Returned a).

(* ------------------------------------------------------------------------ *)
(** ** UTILITY FUNCTIONS *)

(** [execAsync = promisify(exec)], awaited. *)
Definition execAsync (cmd : string) : task Output :=
  Exec cmd (fun r =>
    match r with
    | Resolved out => Ret out
    | Rejected message => Throw message
    end).

(** [execVers]: never rejects, a failure comes back on [stderr]. *)
Definition execVers (command : string) : task Output :=
  try_catch (execAsync ("vers " ++ command))
            (fun message => Ret (mkOutput "" message)).

Arguments execAsync cmd : simpl never.
Arguments execVers command : simpl never.

(** [readManifest]: [null] when the file cannot be read or parsed, or when
    what it parses to is falsy. *)
Definition readManifest : task (option IntegrationManifest.t) :=
  ReadFile "vers-integration.yaml" (fun content =>
    match content with
    | None => Ret None
    | Some c =>
        YamlParse c (fun parsed =>
          match parsed with
          | None => Ret None
          | Some m => Bind_manifest m (Ret (Some m))
          end)
    end).

Definition writeManifest (manifest : IntegrationManifest.t) : task unit :=
  YamlStringify manifest (fun text =>
    WriteFile "vers-integration.yaml" text (Ret tt)).

(* ------------------------------------------------------------------------ *)
(** ** INTEGRATION PROJECT MANAGEMENT *)

(** The [template] argument of [integration_init] (a [z.enum]). *)
Inductive ProjectTemplate : Type :=
| blank | saas_starter | microservices | data_pipeline | ecommerce.

Definition template_name (t : ProjectTemplate) : string :=
  match t with
  | blank => "blank"
  | saas_starter => "saas-starter"
  | microservices => "microservices"
  | data_pipeline => "data-pipeline"
  | ecommerce => "ecommerce"
  end.

Inductive InitReply : Type :=
| InitText (text : string)
| InitReport (status project template : string)
             (services next_steps : list string).

Definition strs (l : list string) : Js.value := Js.Arr (map Js.Str l).

(** A service entry that gives only [template] and [config]. *)
Definition svc (tpl : string) (cfg : option (Js.obj Js.value))
  : ServiceConfig.t :=
  ServiceConfig.mk tpl cfg None None None.

Definition suite_of (cmd : string) (par : option bool)
    (deps : option (list string)) : TestSuite.t :=
  TestSuite.mk cmd par deps None None.

(** The base manifest of [integration_init]. *)
Definition base_manifest (name : string) : IntegrationManifest.t :=
  IntegrationManifest.mk
    name "1.0.0" (Some ("Integration testing project: " ++ name))
    (Vm.mk 2048 2 8000)
    [] (Some []) (Some []) None
    (Some [ ("staging",
             DeployConfig.mk "vers.sh/hosted"
               (Some (name ++ "-staging.vers.sh")) None None None);
            ("production",
             DeployConfig.mk "vers.sh/hosted"
               (Some (name ++ ".vers.sh")) None None None) ]).

Definition with_memory (mib : Z) (m : IntegrationManifest.t)
  : IntegrationManifest.t :=
  let v := IntegrationManifest.vm m in
  IntegrationManifest.mk
    (IntegrationManifest.name m) (IntegrationManifest.version m)
    (IntegrationManifest.description m)
    (Vm.mk mib (Vm.vcpu v) (Vm.storage_mib v))
    (IntegrationManifest.services m) (IntegrationManifest.tests m)
    (IntegrationManifest.checkpoints m) (IntegrationManifest.matrix m)
    (IntegrationManifest.deploy m).

Definition with_tests (t : Js.obj TestSuite.t) (m : IntegrationManifest.t)
  : IntegrationManifest.t :=
  IntegrationManifest.mk
    (IntegrationManifest.name m) (IntegrationManifest.version m)
    (IntegrationManifest.description m) (IntegrationManifest.vm m)
    (IntegrationManifest.services m) (Some t)
    (IntegrationManifest.checkpoints m) (IntegrationManifest.matrix m)
    (IntegrationManifest.deploy m).

(** The [// Apply template] step. *)
Definition apply_template (t : ProjectTemplate) (m : IntegrationManifest.t)
  : IntegrationManifest.t :=
  match t with
  | blank => m
  | saas_starter =>
      with_tests
        [ ("unit", suite_of "npm run test:unit" (Some true) None);
          ("integration",
           suite_of "npm run test:integration" None
                    (Some ["postgres"; "redis"]));
          ("e2e",
           suite_of "npm run test:e2e" None
                    (Some ["postgres"; "redis"; "stripe"])) ]
        (IntegrationManifest.set_services
           [ ("postgres",
              svc "postgres@15"
                (Some [ ("databases", strs ["app"; "analytics"]);
                        ("extensions", strs ["uuid-ossp"; "pg_trgm"]) ]));
             ("redis",
              svc "redis@7" (Some [ ("maxmemory", Js.Str "256mb") ]));
             ("stripe",
              svc "stripe-mock"
                (Some [ ("webhook_endpoint",
                         Js.Str "http://app:3000/webhooks/stripe") ]));
             ("oauth",
              svc "oauth-mock"
                (Some [ ("providers", strs ["google"; "github"]) ]));
             ("smtp", svc "mailhog" None) ] m)
  | microservices =>
      IntegrationManifest.set_services
        [ ("kafka",
           svc "kafka@3"
             (Some [ ("topics",
                      Js.Arr
                        [ Js.Obj [ ("name", Js.Str "events");
                                   ("partitions", Js.Num 3) ];
                          Js.Obj [ ("name", Js.Str "notifications");
                                   ("partitions", Js.Num 1) ] ]) ]));
          ("postgres",
           svc "postgres@15"
             (Some [ ("databases", strs ["users"; "orders"]) ]));
          ("mongodb",
           svc "mongodb@7" (Some [ ("databases", strs ["analytics"]) ]));
          ("redis", svc "redis@7" None) ]
        (with_memory 4096 m)
  | data_pipeline =>
      IntegrationManifest.set_services
        [ ("postgres-source",
           svc "postgres@15" (Some [ ("databases", strs ["source_db"]) ]));
          ("postgres-warehouse",
           svc "postgres@15"
             (Some [ ("databases", strs ["warehouse"]);
                     ("extensions", strs ["pg_trgm"; "btree_gin"]) ]));
          ("elasticsearch", svc "elasticsearch@8" None);
          ("redis", svc "redis@7" (Some [ ("maxmemory", Js.Str "1gb") ])) ]
        (with_memory 4096 m)
  | ecommerce =>
      IntegrationManifest.set_services
        [ ("postgres",
           svc "postgres@15"
             (Some [ ("databases",
                      strs ["ecommerce"; "inventory"; "analytics"]);
                     ("extensions", strs ["uuid-ossp"]) ]));
          ("redis", svc "redis@7" (Some [ ("maxmemory", Js.Str "512mb") ]));
          ("elasticsearch",
           svc "elasticsearch@8"
             (Some [ ("indices", strs ["products"; "orders"]) ]));
          ("stripe", svc "stripe-mock" None);
          ("s3",
           svc "localstack"
             (Some [ ("services", strs ["s3"]);
                     ("buckets", strs ["uploads"; "assets"]) ])) ]
        m
  end.

(** The text written to [vers.toml]. *)
Definition versToml (manifest : IntegrationManifest.t) : string :=
  let v := IntegrationManifest.vm manifest in
  "[vm]" ++ Js.nl ++
  "memory_mib = " ++ Js.str_of_Z (Vm.memory_mib v) ++ Js.nl ++
  "vcpu = " ++ Js.str_of_Z (Vm.vcpu v) ++ Js.nl ++
  Js.nl ++
  "[storage]" ++ Js.nl ++
  "cluster_mib = " ++ Js.str_of_Z (Vm.storage_mib v) ++ Js.nl ++
  "vm_mib = " ++ Js.str_of_Z (Vm.storage_mib v / 2) ++ Js.nl.

Definition integration_init (name : string) (template : option ProjectTemplate)
  : task InitReply :=
  let templateName :=
    match template with
    | Some t => t
    | None => blank
    end in
  (* Check if already initialized *)
  existing <- readManifest ;;
  match existing with
  | Some e =>
      Ret (InitText
             ("Project already initialized: " ++ IntegrationManifest.name e))
  | None =>
      let manifest := apply_template templateName (base_manifest name) in
      writeManifest manifest ;;
      (* Create directory structure *)
      Mkdir "tests" (Mkdir "scripts" (
      (* Create basic vers.toml *)
      WriteFile "vers.toml" (versToml manifest) (
      Ret (InitReport "initialized" name (template_name templateName)
             (Js.keys (IntegrationManifest.services manifest))
             [ "Run 'vers build' to build the VM image";
               "Run '/vers-integration-up' to start services";
               "Run '/vers-integration-test' to run tests" ]))))
  end.

(** *** [integration_up] *)

Inductive UpDetail : Type :=
| BuildStep (output : string)
| Health (service health : string)
| CheckpointCreated (checkpoint : string).

Record UpReport := mkUpReport {
  up_status : string;
  up_started : list string;
  up_failed : list string;
  up_details : list UpDetail
}.

Inductive UpReply : Type :=
| UpText (text : string)
| UpResult (r : UpReport).

(** [!stderr || stderr.includes("started")]. *)
Definition start_succeeded (out : Output) : bool :=
  negb (Js.truthy (stderr out)) || Js.includes (stderr out) "started".

(** [for (const dep of unmetDeps) { ... }]. *)
Fixpoint start_deps (unmetDeps started : list string) : task (list string) :=
  match unmetDeps with
  | [] => Ret started
  | dep :: rest =>
      out <- execVers ("service start " ++ dep) ;;
      start_deps rest
        (if start_succeeded out then (started ++ [dep])%list else started)
  end.

(** [for (const svc of servicesToStart) { ... }], with the arrays [started]
    and [failed] it fills. *)
Fixpoint start_services (manifest : IntegrationManifest.t)
    (servicesToStart started failed : list string)
  : task (list string * list string) :=
  match servicesToStart with
  | [] => Ret (started, failed)
  | svc :: rest =>
      match Js.get svc (IntegrationManifest.services manifest) with
      | None => start_services manifest rest started (failed ++ [svc])%list
      | Some svcConfig =>
          (* Check dependencies *)
          let deps :=
            match ServiceConfig.depends_on svcConfig with
            | Some d => d
            | None => []
            end in
          let unmetDeps := filter (fun d => negb (Js.mem started d)) deps in
          (* Start dependencies first *)
          started1 <- start_deps unmetDeps started ;;
          out <- execVers ("service start " ++ svc) ;;
          if start_succeeded out
          then start_services manifest rest (started1 ++ [svc])%list failed
          else start_services manifest rest started1 (failed ++ [svc])%list
      end
  end.

(** [// Wait for health checks]. *)
Fixpoint wait_healthy (started : list string) (results : list UpDetail)
  : task (list UpDetail) :=
  match started with
  | [] => Ret results
  | svc :: rest =>
      out <- execVers ("service health " ++ svc ++ " --wait") ;;
      wait_healthy rest (results ++ [Health svc (stdout out)])%list
  end.

Definition integration_up (services : option (list string))
    (build : option bool) (checkpoint : option string) : task UpReply :=
  manifest <- readManifest ;;
  match manifest with
  | None => Ret (UpText "Error: No vers-integration.yaml found.")
  | Some manifest =>
      (* Build if requested *)
      results <-
        (if Js.flag build
         then out <- execVers "build" ;;
              Ret [BuildStep (Js.or_str (stdout out) (stderr out))]
         else Ret []) ;;
      (* Start services in dependency order *)
      let servicesToStart :=
        match services with
        | Some l => l
        | None => Js.keys (IntegrationManifest.services manifest)
        end in
      ' (started, failed) <-
        start_services manifest servicesToStart [] [] ;;
      results <- wait_healthy started results ;;
      (* Create checkpoint if requested *)
      results <-
        (if Js.truthy_opt checkpoint && (List.length failed =? 0)%nat
         then
           let tag := Js.or_else checkpoint "" in
           execVers ("commit --tag " ++ Js.dq ++ tag ++ Js.dq) ;;
           Ret (results ++ [CheckpointCreated tag])%list
         else Ret results) ;;
      Ret (UpResult
             (mkUpReport
                (if (List.length failed =? 0)%nat then "success" else "partial")
                started failed results))
  end.

(* ------------------------------------------------------------------------ *)
(** ** CHAOS TESTING TOOLS *)

(** The [action] argument of [chaos_inject] (a [z.enum]). *)
Inductive ChaosAction : Type :=
| kill | pause | network_isolate | cpu_stress | memory_stress | disk_fill.

Definition action_name (a : ChaosAction) : string :=
  match a with
  | kill => "kill"
  | pause => "pause"
  | network_isolate => "network-isolate"
  | cpu_stress => "cpu-stress"
  | memory_stress => "memory-stress"
  | disk_fill => "disk-fill"
  end.

(** The number a stress action interpolates into its command:
    [cpuIntensity], [memIntensity] and [diskPercent].  The other actions use
    none.  Intensities are modelled as integral numbers. *)
Definition used_intensity (action : ChaosAction) (intensity : option Z)
  : option Z :=
  match action with
  | cpu_stress => Some (Js.or_num intensity 80)
  | memory_stress => Some (Js.or_num intensity 80)
  | disk_fill => Some (Js.or_num intensity 95)
  | _ => None
  end.

(** The [switch (action)] of [chaos_inject]. *)
Definition chaosCommand (service : string) (action : ChaosAction)
    (duration : option string) (intensity : option Z) : string :=
  match action with
  | kill => "service stop " ++ service ++ " --force"
  | pause => "service pause " ++ service
  | network_isolate =>
      "execute --service " ++ service ++ " " ++ Js.dq ++
      "iptables -A INPUT -j DROP && iptables -A OUTPUT -j DROP" ++ Js.dq
  | cpu_stress =>
      let cpuIntensity := Js.or_num intensity 80 in
      "execute --service " ++ service ++ " " ++ Js.dq ++
      "stress-ng --cpu 2 --cpu-load " ++ Js.str_of_Z cpuIntensity ++
      " --timeout " ++ Js.or_else duration "30s" ++ Js.dq
  | memory_stress =>
      let memIntensity := Js.or_num intensity 80 in
      "execute --service " ++ service ++ " " ++ Js.dq ++
      "stress-ng --vm 1 --vm-bytes " ++ Js.str_of_Z memIntensity ++
      "% --timeout " ++ Js.or_else duration "30s" ++ Js.dq
  | disk_fill =>
      let diskPercent := Js.or_num intensity 95 in
      "execute --service " ++ service ++ " " ++ Js.dq ++
      "fallocate -l $(df / | awk 'NR==2 {print int($4*" ++
      Js.str_of_Z diskPercent ++ "/100)}')K /tmp/fill" ++ Js.dq
  end.

Record ChaosReport := mkChaosReport {
  chaos_status : string;
  chaos_service : string;
  chaos_action : string;
  chaos_duration : string;
  rollback_checkpoint : string;
  chaos_output : string
}.

Definition chaos_inject (service : string) (action : ChaosAction)
    (duration : option string) (intensity : option Z) : task ChaosReport :=
  (* Create checkpoint before chaos *)
  now <- DateNow Ret ;;
  let checkpointName := "pre-chaos-" ++ service ++ "-" ++ Js.str_of_Z now in
  execVers ("commit --tag " ++ Js.dq ++ checkpointName ++ Js.dq) ;;
  let chaosCommand := chaosCommand service action duration intensity in
  out <- execVers chaosCommand ;;
  Ret (mkChaosReport "injected" service (action_name action)
         (Js.or_else duration "permanent") checkpointName
         (Js.or_str (stdout out) (stderr out))).

(* ------------------------------------------------------------------------ *)
(** ** TESTING OPERATIONS *)

(** *** [integration_test] *)

Record TestSummary := mkTestSummary {
  total : nat;
  sum_passed : nat;
  sum_failed : nat
}.

Inductive TestReply : Type :=
| TestText (text : string)
| TestReport (summary : TestSummary) (results : list TestResult.t).

(** [Date.now()] as a task. *)
Definition now : task Z := DateNow Ret.

(** [if (hook) { await execAsync(hook); }]. *)
Definition run_hook (hook : option string) : task unit :=
  if Js.truthy_opt hook
  then execAsync (Js.or_else hook "") ;; Ret tt
  else Ret tt.

(** The [try { ... } catch { ... }] around the test command: one
    [TestResult] either way. *)
Definition run_command (suiteName branchName cmd : string) : task TestResult.t :=
  startTime <- now ;;
  try_catch
    (out <- execAsync cmd ;;
     finished <- now ;;
     Ret (TestResult.mk suiteName branchName Status.passed
            (finished - startTime) (Some (stdout out)) None))
    (fun message =>
       finished <- now ;;
       Ret (TestResult.mk suiteName branchName Status.failed
              (finished - startTime) None (Some message))).

(** The alias of a scenario's branch. *)
Definition branchAlias (prefix suiteName branchName : string) : string :=
  prefix ++ "-" ++ suiteName ++ "-" ++ branchName.

(** [Object.entries(env).map(([k, v]) => `${k}=${v}`).join(" ")]. *)
Definition envStr (env : Js.obj string) : string :=
  Js.join " " (map (fun kv => fst kv ++ "=" ++ snd kv) env).

(** One turn of [for (const branch of suiteConfig.branches)]. *)
Definition run_scenario (prefix suiteName : string) (suiteConfig : TestSuite.t)
    (branch : TestBranch.t) : task TestResult.t :=
  let branchAlias := branchAlias prefix suiteName (TestBranch.name branch) in
  (* Create branch *)
  execVers ("branch --alias " ++ branchAlias) ;;
  execVers ("checkout " ++ branchAlias) ;;
  (* Run before script if exists *)
  run_hook (TestBranch.before branch) ;;
  (* Set environment and run test *)
  let env := Js.spread (Js.spread_opt (TestSuite.env suiteConfig))
                       (Js.spread_opt (TestBranch.env branch)) in
  result <- run_command suiteName (TestBranch.name branch)
              (envStr env ++ " " ++ TestSuite.command suiteConfig) ;;
  (* Run after script if exists *)
  run_hook (TestBranch.after branch) ;;
  Ret result.

(** [for (const branch of suiteConfig.branches) { ... }], filling
    [suiteResults]. *)
Fixpoint run_scenarios (prefix suiteName : string) (suiteConfig : TestSuite.t)
    (branches : list TestBranch.t) (suiteResults : list TestResult.t)
  : task (list TestResult.t) :=
  match branches with
  | [] => Ret suiteResults
  | branch :: rest =>
      result <- run_scenario prefix suiteName suiteConfig branch ;;
      run_scenarios prefix suiteName suiteConfig rest
                    (suiteResults ++ [result])%list
  end.

(** The closure [runTest] of [integration_test].  [suiteConfig] is
    [undefined] when the requested suite is not in the manifest; reading
    [.branches] of it throws. *)
Definition runTest (prefix suiteName : string)
    (suiteConfig : option TestSuite.t) : task (list TestResult.t) :=
  match suiteConfig with
  | None =>
      Throw "Cannot read properties of undefined (reading 'branches')"
  | Some suiteConfig =>
      match TestSuite.branches suiteConfig with
      | Some (b :: bs) =>
          (* Run each branch scenario *)
          run_scenarios prefix suiteName suiteConfig (b :: bs) []
      | _ =>
          (* Single test run *)
          let branchAlias := prefix ++ "-" ++ suiteName in
          execVers ("branch --alias " ++ branchAlias) ;;
          execVers ("checkout " ++ branchAlias) ;;
          result <- run_command suiteName branchAlias
                      (TestSuite.command suiteConfig) ;;
          Ret [result]
      end
  end.

(** The sequential [for (const [name, config] of Object.entries(suitesToRun))]. *)
Fixpoint run_suites (prefix : string)
    (suitesToRun : list (string * option TestSuite.t))
    (results : list TestResult.t) : task (list TestResult.t) :=
  match suitesToRun with
  | [] => Ret results
  | (name, config) :: rest =>
      suiteResults <- runTest prefix name config ;;
      run_suites prefix rest (results ++ suiteResults)%list
  end.

Definition count_status (s : Status.t) (results : list TestResult.t) : nat :=
  List.length (filter (fun r => Status.eqb (TestResult.status r) s) results).

(** The tag of the checkpoint committed before the tests. *)
Definition baseline_tag (prefix : string) (ts : Z) : string :=
  prefix ++ "-baseline-" ++ Js.str_of_Z ts.

Definition integration_test (suite : option string) (parallel : option bool)
    (branch_prefix : option string) : handler TestReply :=
  and_then (await readManifest) (fun manifest =>
  match manifest with
  | None => reply (TestText "Error: No tests defined in vers-integration.yaml")
  | Some manifest =>
  match IntegrationManifest.tests manifest with
  | None => reply (TestText "Error: No tests defined in vers-integration.yaml")
  | Some tests =>
      let suitesToRun :=
        if Js.truthy_opt suite
        then [(Js.or_else suite "", Js.get (Js.or_else suite "") tests)]
        else map (fun kv => (fst kv, Some (snd kv))) tests in
      let prefix := Js.or_else branch_prefix "test" in
      (* Create checkpoint before tests *)
      and_then
        (await (ts <- now ;;
                execVers ("commit --tag " ++ Js.dq ++ baseline_tag prefix ts
                          ++ Js.dq)))
        (fun _ =>
      and_then
        (if Js.flag parallel
         then
           and_then
             (promise_all
                (map (fun nc => runTest prefix (fst nc) (snd nc)) suitesToRun))
             (fun allResults => reply (List.concat allResults))
         else await (run_suites prefix suitesToRun []))
        (fun results =>
      (* Summary *)
      reply (TestReport
               (mkTestSummary (List.length results)
                  (count_status Status.passed results)
                  (count_status Status.failed results))
               results)))
  end
  end).

(** *** [integration_matrix] *)

(** One assignment of a version to every dimension. *)
Definition combination := Js.obj string.

(** [filter && filter[key] && filter[key] !== version]: the version is
    skipped. *)
Definition filtered_out (filter : option (Js.obj string)) (key version : string)
  : bool :=
  match filter with
  | None => false
  | Some f =>
      match Js.get key f with
      | None => false
      | Some wanted => Js.truthy wanted && negb (wanted =? version)
      end
  end.

(** [matrix[key]] for a key of the matrix. *)
Definition versions_of (matrix : Js.obj (list string)) (key : string)
  : list string :=
  match Js.get key matrix with
  | Some versions => versions
  | None => []
  end.

(** The recursive closure [generate].  [keys] are the keys from [index] on;
    the state is the object [current], which every call mutates, and the
    array [combinations] it pushes copies to. *)
Fixpoint generate (matrix : Js.obj (list string))
    (filter : option (Js.obj string)) (keys : list string)
    (st : combination * list combination) : combination * list combination :=
  match keys with
  | [] => (fst st, (snd st ++ [fst st])%list)
  | key :: keys' =>
      fold_left
        (fun st version =>
           if filtered_out filter key version then st
           else generate matrix filter keys'
                  (Js.set key version (fst st), snd st))
        (versions_of matrix key) st
  end.

(** [generate(0, {})] and the array it leaves. *)
Definition combinations_of (matrix : Js.obj (list string))
    (filter : option (Js.obj string)) : list combination :=
  snd (generate matrix filter (Js.keys matrix) ([], [])).

Record MatrixResult := mkMatrixResult {
  combination_of : combination;
  branch_of : option string;
  status_of : Status.t;
  output_of : option string;
  error_of : option string
}.

(** [Object.entries(combo).map(([k, v]) => `${k}${v}`).join("-")]. *)
Definition combo_name (combo : combination) : string :=
  Js.join "-" (map (fun kv => fst kv ++ snd kv) combo).

(** [// Update service versions]: the loop over the entries of [combo]. *)
Fixpoint update_versions (entries : list (string * string)) : task unit :=
  match entries with
  | [] => Ret tt
  | (service, version) :: rest =>
      Deref (fun manifest =>
        match manifest with
        | None => update_versions rest
        | Some m =>
            match Js.get service (IntegrationManifest.services m) with
            | Some svcConfig =>
                let svcName := Js.before_at (ServiceConfig.template svcConfig) in
                Assign_template service (svcName ++ "@" ++ version)
                  (update_versions rest)
            | None => update_versions rest
            end
        end)
  end.

(** The closure [runCombination]. *)
Definition runCombination (combo : combination) : task MatrixResult :=
  let name := combo_name combo in
  (* Create branch *)
  execVers ("branch --alias matrix-" ++ name) ;;
  execVers ("checkout matrix-" ++ name) ;;
  (* Update service versions *)
  update_versions combo ;;
  (* Restart services *)
  execVers "service restart --all" ;;
  (* Run tests *)
  out <- execAsync "npm test" ;;
  Ret (mkMatrixResult combo (Some ("matrix-" ++ name))
         (if Js.truthy (stderr out) then Status.failed else Status.passed)
         (Some (Js.or_str (stdout out) (stderr out))) None).

(** The body of the sequential loop: the [try] yields the result of the
    combination, the [catch] a result of status [error]. *)
Definition attempt (combo : combination) : task MatrixResult :=
  try_catch (runCombination combo)
    (fun message =>
       Ret (mkMatrixResult combo None Status.error None (Some message))).

Definition is_failure (s : Status.t) : bool :=
  Status.eqb s Status.failed || Status.eqb s Status.error.

(** The sequential [for (const combo of combinations)] with its [break]s:
    a result of the [try] breaks when it is [failed], a result of the
    [catch] (always [error]) breaks unconditionally, both only when
    [continue_on_failure] is falsy. *)
Fixpoint run_combinations (continue_on_failure : option bool)
    (combinations : list combination) (results : list MatrixResult)
  : task (list MatrixResult) :=
  match combinations with
  | [] => Ret results
  | combo :: rest =>
      result <- attempt combo ;;
      let results := (results ++ [result])%list in
      if is_failure (status_of result) && negb (Js.flag continue_on_failure)
      then Ret results
      else run_combinations continue_on_failure rest results
  end.

Record MatrixReport := mkMatrixReport {
  report_matrix : Js.obj (list string);
  total_combinations : nat;
  matrix_passed : nat;
  matrix_failed : nat;
  matrix_results : list MatrixResult
}.

Inductive MatrixReply : Type :=
| MatrixText (text : string)
| MatrixDone (r : MatrixReport).

Definition count_matrix (s : Status.t) (results : list MatrixResult) : nat :=
  List.length (filter (fun r => Status.eqb (status_of r) s) results).

Definition integration_matrix (filter : option (Js.obj string))
    (parallel continue_on_failure : option bool) : handler MatrixReply :=
  and_then (await readManifest) (fun manifest =>
  match manifest with
  | None =>
      reply (MatrixText "Error: No matrix defined in vers-integration.yaml")
  | Some manifest =>
  match IntegrationManifest.matrix manifest with
  | None =>
      reply (MatrixText "Error: No matrix defined in vers-integration.yaml")
  | Some matrix =>
      (* Generate all combinations *)
      let combinations := combinations_of matrix filter in
      and_then
        (if Js.flag parallel
         then promise_all (map runCombination combinations)
         else await (run_combinations continue_on_failure combinations []))
        (fun results =>
      reply (MatrixDone
               (mkMatrixReport matrix (List.length combinations)
                  (count_matrix Status.passed results)
                  (count_matrix Status.failed results)
                  results)))
  end
  end).

(* ------------------------------------------------------------------------ *)
(** ** SERVICE TEMPLATES *)

(** [Partial<ServiceConfig>]: every property may be absent. *)
Module PartialServiceConfig.
Record t := mk {
    template : option string;
    config : option (Js.obj Js.value);
    depends_on : option (list string);
    healthcheck : option HealthCheck.t;
    resources : option Resources.t
  }.

(** [{}]. *)
Definition empty : t := mk None None None None None.
End PartialServiceConfig.

(** An entry of [SERVICE_TEMPLATES]: a health check, resources and, for
    some, dependencies. *)
Definition template_defaults (deps : option (list string))
    (command interval timeout : string) (retries : Z)
    (memory : string) (storage : option string) : PartialServiceConfig.t :=
  PartialServiceConfig.mk None None deps
    (Some (HealthCheck.mk command (Some interval) (Some timeout)
                          (Some retries)))
    (Some (Resources.mk (Some memory) None storage)).

Definition SERVICE_TEMPLATES : Js.obj PartialServiceConfig.t :=
  [ ("postgres",
     template_defaults None "pg_isready -U postgres" "5s" "5s" 5
                       "512mb" (Some "2gb"));
    ("redis",
     template_defaults None "redis-cli ping" "5s" "3s" 3 "256mb" None);
    ("mongodb",
     template_defaults None "mongosh --eval 'db.runCommand({ ping: 1 })'"
                       "10s" "5s" 5 "512mb" (Some "2gb"));
    ("kafka",
     template_defaults (Some ["zookeeper"])
       "kafka-broker-api-versions --bootstrap-server localhost:9092"
       "10s" "10s" 10 "1gb" None);
    ("elasticsearch",
     template_defaults None "curl -s localhost:9200/_cluster/health"
                       "10s" "10s" 10 "1gb" (Some "5gb"));
    ("rabbitmq",
     template_defaults None "rabbitmq-diagnostics check_running"
                       "10s" "10s" 5 "512mb" None);
    ("stripe-mock",
     template_defaults None "curl -s localhost:12111/v1/charges"
                       "5s" "5s" 3 "128mb" None);
    ("localstack",
     template_defaults None "curl -s localhost:4566/_localstack/health"
                       "10s" "10s" 10 "2gb" None);
    ("mailhog",
     template_defaults None "curl -s localhost:8025/api/v2/messages"
                       "5s" "5s" 3 "64mb" None) ].

(* ------------------------------------------------------------------------ *)
(** ** INTEGRATION PROJECT MANAGEMENT, continued *)

(** [delete o[k]]. *)
Fixpoint delete_key {V : Type} (k : string) (o : Js.obj V) : Js.obj V :=
  match o with
  | [] => []
  | (k', v) :: o' =>
      if k =? k' then delete_key k o' else (k', v) :: delete_key k o'
  end.

(** [a || b] on optional values: the first that is present. *)
Definition or_opt {V : Type} (a b : option V) : option V :=
  match a with
  | Some v => Some v
  | None => b
  end.

(** [{ template: service, config: { ...config }, ...templateDefaults }]:
    a property of [templateDefaults] that is present replaces the one
    written before it. *)
Definition merge_service (service : string)
    (config : option (Js.obj Js.value))
    (templateDefaults : PartialServiceConfig.t) : ServiceConfig.t :=
  ServiceConfig.mk
    (match PartialServiceConfig.template templateDefaults with
     | Some t => t
     | None => service
     end)
    (or_opt (PartialServiceConfig.config templateDefaults)
            (Some (Js.spread_opt config)))
    (PartialServiceConfig.depends_on templateDefaults)
    (PartialServiceConfig.healthcheck templateDefaults)
    (PartialServiceConfig.resources templateDefaults).

Inductive AddReply : Type :=
| AddText (text : string)
| Added (status service template : string) (config : ServiceConfig.t)
        (total_services : nat).

(** The manifest once [manifest.services[serviceAlias] = serviceConfig]. *)
Definition with_service (serviceAlias : string) (serviceConfig : ServiceConfig.t)
    (manifest : IntegrationManifest.t) : IntegrationManifest.t :=
  IntegrationManifest.set_services
    (Js.set serviceAlias serviceConfig (IntegrationManifest.services manifest))
    manifest.

Definition integration_add_service (service : string) (alias : option string)
    (config : option (Js.obj Js.value)) : task AddReply :=
  manifest <- readManifest ;;
  match manifest with
  | None =>
      Ret (AddText "Error: No vers-integration.yaml found. Run /vers-integration-init first.")
  | Some manifest =>
      (* Parse service@version *)
      let serviceName := Js.before_at service in
      let serviceAlias := Js.or_else alias serviceName in
      (* Get template defaults *)
      let templateDefaults :=
        match Js.get serviceName SERVICE_TEMPLATES with
        | Some d => d
        | None => PartialServiceConfig.empty
        end in
      (* Merge configuration *)
      let serviceConfig := merge_service service config templateDefaults in
      let manifest := with_service serviceAlias serviceConfig manifest in
      Bind_manifest manifest (
      writeManifest manifest ;;
      Ret (Added "added" serviceAlias service serviceConfig
             (List.length (Js.keys (IntegrationManifest.services manifest)))))
  end.

(** The manifest once [delete manifest.services[service]]. *)
Definition without_service (service : string) (manifest : IntegrationManifest.t)
  : IntegrationManifest.t :=
  IntegrationManifest.set_services
    (delete_key service (IntegrationManifest.services manifest)) manifest.

Definition integration_remove_service (service : string) : task string :=
  manifest <- readManifest ;;
  match manifest with
  | None => Ret "Error: No vers-integration.yaml found."
  | Some manifest =>
      match Js.get service (IntegrationManifest.services manifest) with
      | None => Ret ("Error: Service '" ++ service ++ "' not found.")
      | Some _ =>
          let manifest := without_service service manifest in
          Bind_manifest manifest (
          writeManifest manifest ;;
          Ret ("Service '" ++ service ++ "' removed."))
      end
  end.

(** *** [integration_down] *)

Record DownReport := mkDownReport {
  down_stopped : list string;
  down_details : list (string * string)
}.

Inductive DownReply : Type :=
| DownText (text : string)
| DownResult (r : DownReport).

(** [for (const svc of servicesToStop.reverse())]. *)
Fixpoint stop_services (reversed : list string)
    (results : list (string * string)) : task (list (string * string)) :=
  match reversed with
  | [] => Ret results
  | svc :: rest =>
      out <- execVers ("service stop " ++ svc) ;;
      stop_services rest
        (results ++ [(svc, Js.or_str (stdout out) (stderr out))])%list
  end.

(** [reverse()] reverses the array in place: [servicesToStop] itself is
    reversed when the reply is built. *)
Definition integration_down (services : option (list string))
  : task DownReply :=
  manifest <- readManifest ;;
  match manifest with
  | None => Ret (DownText "Error: No vers-integration.yaml found.")
  | Some manifest =>
      let servicesToStop :=
        match services with
        | Some l => l
        | None => Js.keys (IntegrationManifest.services manifest)
        end in
      let servicesToStop := rev servicesToStop in
      results <- stop_services servicesToStop [] ;;
      Ret (DownResult (mkDownReport servicesToStop results))
  end.

(* ------------------------------------------------------------------------ *)
(** ** TESTING OPERATIONS, continued *)

(** *** [integration_compare_branches] *)

(** The [aspects] of a comparison (a [z.enum]). *)
Inductive Aspect : Type :=
| database | files_aspect | processes | logs.

Definition aspect_name (a : Aspect) : string :=
  match a with
  | database => "database"
  | files_aspect => "files"
  | processes => "processes"
  | logs => "logs"
  end.

(** The command that reads the state of an aspect. *)
Definition probe_cmd (a : Aspect) : string :=
  match a with
  | database =>
      "psql -c 'SELECT table_name, n_live_tup FROM pg_stat_user_tables ORDER BY table_name;'"
  | files_aspect =>
      "find /app -type f -newer /tmp/baseline 2>/dev/null | head -50"
  | processes => "ps aux"
  | logs => "tail -100 /var/log/app.log 2>/dev/null || echo 'No logs'"
  end.

(** A property of a comparison entry: the state of a branch, or the flag
    [different]. *)
Inductive CompareField : Type :=
| State (s : string)
| Flag (b : bool).

(** [{ [branch1]: state1, [branch2]: state2, different: state1 !== state2 }]. *)
Definition comparison_entry (branch1 branch2 state1 state2 : string)
  : Js.obj CompareField :=
  Js.set "different" (Flag (negb (state1 =? state2)))
    (Js.set branch2 (State state2)
       (Js.set branch1 (State state1) [])).

(** [for (const aspect of compareAspects) { ... }], filling [comparison]. *)
Fixpoint compare_aspects (branch1 branch2 : string)
    (compareAspects : list Aspect)
    (comparison : Js.obj (Js.obj CompareField))
  : task (Js.obj (Js.obj CompareField)) :=
  match compareAspects with
  | [] => Ret comparison
  | aspect :: rest =>
      (* Get state from branch1 *)
      execVers ("checkout " ++ branch1) ;;
      out1 <- execAsync (probe_cmd aspect) ;;
      let state1 := stdout out1 in
      (* Get state from branch2 *)
      execVers ("checkout " ++ branch2) ;;
      out2 <- execAsync (probe_cmd aspect) ;;
      let state2 := stdout out2 in
      compare_aspects branch1 branch2 rest
        (Js.set (aspect_name aspect)
                (comparison_entry branch1 branch2 state1 state2)
                comparison)
  end.

Definition integration_compare_branches (branch1 branch2 : string)
    (aspects : option (list Aspect)) : task (Js.obj (Js.obj CompareField)) :=
  let compareAspects :=
    match aspects with
    | Some l => l
    | None => [database; files_aspect]
    end in
  compare_aspects branch1 branch2 compareAspects [].

(* ------------------------------------------------------------------------ *)
(** ** DEPLOYMENT OPERATIONS *)

(** The [environment] of a deployment (a [z.enum]). *)
Inductive Environment : Type :=
| staging | production | preview.

Definition environment_name (e : Environment) : string :=
  match e with
  | staging => "staging"
  | production => "production"
  | preview => "preview"
  end.

Record Deployed := mkDeployed {
  deploy_status : string;
  deploy_environment : string;
  deploy_url : option string;
  deployment_id : option string;
  deploy_branch : string
}.

Inductive DeployReply : Type :=
| DeployText (text : string)
| DeployDone (r : Deployed).

(** [--environment ...], [--domain ...] and [--wait], joined by spaces. *)
Definition deploy_args (environment : Environment) (domain : option string)
    (wait : option bool) : string :=
  Js.join " "
    ([("--environment " ++ environment_name environment)%string]
     ++ (if Js.truthy_opt domain
         then [("--domain " ++ Js.or_else domain "")%string] else [])
     ++ (match wait with
         | Some false => []
         | _ => ["--wait"]
         end))%list.

(** [integration_deploy].  [parse] stands for [JSON.parse(stdout)] followed
    by the reads of [.url] and [.id] of what it returns: [None] when that
    throws. *)
Definition integration_deploy
    (parse : string -> option (option string * option string))
    (environment : Environment) (branch domain : option string)
    (wait : option bool) : task DeployReply :=
  manifest <- readManifest ;;
  match manifest with
  | None => Ret (DeployText "Error: No vers-integration.yaml found.")
  | Some manifest =>
      let deployConfig :=
        match IntegrationManifest.deploy manifest with
        | Some d => Js.get (environment_name environment) d
        | None => None
        end in
      match deployConfig with
      | None =>
          Ret (DeployText ("Error: No deploy configuration for '"
                           ++ environment_name environment ++ "'."))
      | Some deployConfig =>
          (* Checkout branch if specified *)
          (if Js.truthy_opt branch
           then execVers ("checkout " ++ Js.or_else branch "") ;; Ret tt
           else Ret tt) ;;
          (* Build deployment command *)
          out <- execVers ("integration deploy "
                           ++ deploy_args environment domain wait) ;;
          if Js.truthy (stderr out)
             && negb (Js.includes (stderr out) "deployed")
          then Ret (DeployText ("Deployment failed: " ++ stderr out))
          else
            (* Parse deployment result *)
            match parse (stdout out) with
            | Some (url, id) =>
                Ret (DeployDone
                       (mkDeployed "deployed" (environment_name environment)
                          (if Js.truthy_opt url then url
                           else if Js.truthy_opt domain then domain
                           else DeployConfig.domain deployConfig)
                          id
                          (Js.or_else branch "HEAD")))
            | None => Ret (DeployText (stdout out))
            end
      end
  end.

(* ------------------------------------------------------------------------ *)
(** ** UTILITY OPERATIONS and DATABASE-SPECIFIC TOOLS *)

(** [stderr || stdout], the reply of the tools that relay one command. *)
Definition relay (out : Output) : string :=
  Js.or_str (stderr out) (stdout out).

Definition vers_execute (command : string) (service : option string)
    (interactive : option bool) : task string :=
  let args :=
    ((if Js.truthy_opt service
      then [("--service " ++ Js.or_else service "")%string] else [])
     ++ (if Js.flag interactive then ["--detach"] else []))%list in
  out <- execVers ("execute " ++ Js.join " " args ++ " "
                   ++ Js.dq ++ command ++ Js.dq) ;;
  Ret (relay out).

(** [query.replace(/'/g, "\\'")]: a backslash goes before every single
    quote. *)
Fixpoint escape_quotes (query : string) : string :=
  match query with
  | EmptyString => EmptyString
  | String c rest =>
      if Ascii.eqb c "'"%char
      then String "\"%char (String "'"%char (escape_quotes rest))
      else String c (escape_quotes rest)
  end.

(** The command line of [db_query]. *)
Definition db_query_cmd (query : string) (database service : option string)
  : string :=
  let db := Js.or_else database "postgres" in
  let svc := Js.or_else service "postgres" in
  let escapedQuery := escape_quotes query in
  "vers execute --service " ++ svc ++ " " ++ Js.dq ++
  "psql -d " ++ db ++ " -c '" ++ escapedQuery ++ "'" ++ Js.dq.

Definition db_query (query : string) (database service : option string)
  : task string :=
  out <- execAsync (db_query_cmd query database service) ;;
  Ret (relay out).

(* ------------------------------------------------------------------------ *)
(** ** WEB TESTING TOOLS *)

Record WebBranches := mkWebBranches {
  web_baseline : string;
  web_branches : list string;
  web_usage : string
}.

(** [for (const scenario of scenarios) { ... }], filling [branches]. *)
Fixpoint create_branches (prefix : string) (scenarios branches : list string)
  : task (list string) :=
  match scenarios with
  | [] => Ret branches
  | scenario :: rest =>
      let branchName := prefix ++ "-" ++ scenario in
      execVers ("branch --alias " ++ branchName) ;;
      create_branches prefix rest (branches ++ [branchName])%list
  end.

Definition web_test_branch (prefix : string) (scenarios : list string)
  : task WebBranches :=
  (* Create checkpoint first *)
  execVers ("commit --tag " ++ Js.dq ++ prefix ++ "-baseline" ++ Js.dq) ;;
  branches <- create_branches prefix scenarios [] ;;
  Ret (mkWebBranches (prefix ++ "-baseline") branches
         ("Run tests: branches.forEach(b => vers checkout ${b} && vers execute "
          ++ Js.dq ++ "node test-${scenario}.js" ++ Js.dq ++ ")")).

(* ------------------------------------------------------------------------ *)
(** ** CHAOS TESTING TOOLS, continued *)

Inductive RecoverReply : Type :=
| RecoverText (text : string)
| Recovered (action target output : string).

Definition chaos_recover (checkpoint service : option string)
  : task RecoverReply :=
  if Js.truthy_opt checkpoint
  then
    out <- execVers ("rollback " ++ Js.or_else checkpoint "") ;;
    Ret (Recovered "rollback" (Js.or_else checkpoint "")
           (Js.or_str (stdout out) (stderr out)))
  else if Js.truthy_opt service
  then
    out <- execVers ("service restart " ++ Js.or_else service "") ;;
    Ret (Recovered "restart" (Js.or_else service "")
           (Js.or_str (stdout out) (stderr out)))
  else Ret (RecoverText "Error: Specify checkpoint or service to recover").

(* ======================================================================== *)
(** * The vocabulary of the statements

    Nothing below is a translation of the server's code: these are the
    notions the properties are stated with, and the sample projects they are
    evaluated on. *)

(** The world after [cmd] was spawned and has settled, and what it settled
    to. *)
Definition exec_answer (cmd : string) (w : world) : ExecResult :=
  exec_reply (environment w) (log w ++ [Issued cmd])%list cmd.

Definition exec_world (cmd : string) (w : world) : world :=
  record (Settled cmd (exec_answer cmd w)) (record (Issued cmd) w).

(** What [execVers] makes of a settled command. *)
Definition vers_output (r : ExecResult) : Output :=
  match r with
  | Resolved out => out
  | Rejected message => mkOutput "" message
  end.

(** The commands spawned, in order. *)
Fixpoint issued (evs : list event) : list string :=
  match evs with
  | [] => []
  | Issued c :: evs' => c :: issued evs'
  | _ :: evs' => issued evs'
  end.

(** The log of [w'] is the log of [w] with more events at its end. *)
Definition extends (w w' : world) : Prop :=
  exists evs, log w' = (log w ++ evs)%list.

Module Sample.

(** Every command exits with code 0 and prints [ok]; the clock counts the
    events logged so far; the manifest file parses to [m]. *)
Definition quiet_env (m : IntegrationManifest.t) (order : list nat) : env :=
  mkEnv (fun _ _ => Resolved (mkOutput "ok" ""))
        (fun l => Z.of_nat (List.length l))
        (fun _ => Some m)
        (fun _ => "name: demo")
        order.

(** A project directory holding a manifest file. *)
Definition project (e : env) : world :=
  mkWorld e [("vers-integration.yaml", "name: demo")] [] None [].

Definition depends (tpl : string) (deps : list string) : ServiceConfig.t :=
  ServiceConfig.mk tpl None (Some deps) None None.

Definition manifest_of (services : Js.obj ServiceConfig.t)
    (tests : option (Js.obj TestSuite.t))
    (matrix : option (Js.obj (list string))) : IntegrationManifest.t :=
  IntegrationManifest.mk "demo" "1.0.0" None (Vm.mk 2048 2 8000)
    services tests None matrix None.

(** [a] depends on [b], [b] depends on [c]: an acyclic chain, declared in the
    order [a], [b], [c]. *)
Definition chain : IntegrationManifest.t :=
  manifest_of [ ("a", depends "app@1" ["b"]);
                ("b", depends "redis@7" ["c"]);
                ("c", depends "postgres@15" []) ] None None.

End Sample.

(** The command line of [execVers(`service start ${svc}`)]. *)
Definition start_cmd (svc : string) : string := "vers service start " ++ svc.

(** The dependencies of a service: [svcConfig.depends_on || []]. *)
Definition deps_of (svcConfig : ServiceConfig.t) : list string :=
  match ServiceConfig.depends_on svcConfig with
  | Some d => d
  | None => []
  end.

(** The tag [chaos_inject] gives its checkpoint in world [w]. *)
Definition chaos_checkpoint (service : string) (w : world) : string :=
  "pre-chaos-" ++ service ++ "-" ++
  Js.str_of_Z (date_now (environment w) (log w)).

(** The command line of [execVers(`commit --tag "${tag}"`)]. *)
Definition commit_cmd (tag : string) : string :=
  "vers commit --tag " ++ Js.dq ++ tag ++ Js.dq.

(** The command of a stress action with the number [v] interpolated. *)
Definition stress_command (service : string) (action : ChaosAction)
    (duration : option string) (v : Z) : string :=
  match action with
  | cpu_stress =>
      "execute --service " ++ service ++ " " ++ Js.dq ++
      "stress-ng --cpu 2 --cpu-load " ++ Js.str_of_Z v ++
      " --timeout " ++ Js.or_else duration "30s" ++ Js.dq
  | memory_stress =>
      "execute --service " ++ service ++ " " ++ Js.dq ++
      "stress-ng --vm 1 --vm-bytes " ++ Js.str_of_Z v ++
      "% --timeout " ++ Js.or_else duration "30s" ++ Js.dq
  | disk_fill =>
      "execute --service " ++ service ++ " " ++ Js.dq ++
      "fallocate -l $(df / | awk 'NR==2 {print int($4*" ++
      Js.str_of_Z v ++ "/100)}')K /tmp/fill" ++ Js.dq
  | _ => chaosCommand service action duration None
  end.

Module Matrix.

(** *** What the generator is meant to enumerate *)


(** The cartesian product of the dimensions, first dimension slowest. *)
Fixpoint cartesian (dims : list (string * list string)) : list combination :=
  match dims with
  | [] => [[]]
  | (key, versions) :: dims' =>
      flat_map (fun v => map (cons (key, v)) (cartesian dims')) versions
  end.


(** The matrix of the specification's examples. *)
Definition example : Js.obj (list string) :=
  [ ("postgres", ["14"; "15"; "16"]); ("redis", ["6"; "7"]) ].

(** *** What [generate] does *)

(** The values of a dimension that [generate] does not skip. *)
Definition kept (filter : option (Js.obj string)) (key : string)
    (versions : list string) : list string :=
  List.filter (fun v => negb (filtered_out filter key v)) versions.

(** The properties of [current] past the dimensions already assigned: what
    an earlier descent left behind, always for a first stretch of the
    remaining keys. *)
Inductive stale_of : list string -> combination -> Prop :=
| stale_none (keys : list string) : stale_of keys []
| stale_more (key : string) (keys : list string) (v : string)
    (st : combination) :
    stale_of keys st -> stale_of (key :: keys) ((key, v) :: st).

(** The dimensions with the values [generate] does not skip. *)
Definition kept_dims (filter : option (Js.obj string))
    (dims : list (string * list string)) : list (string * list string) :=
  map (fun d => (fst d, kept filter (fst d) (snd d))) dims.

End Matrix.

Module Scenarios.

Definition scenario (name : string) (env : option (Js.obj string))
    (after : option string) : TestBranch.t :=
  TestBranch.mk name env None after.

(** The suite [checkout] of the specification, with its two scenarios. *)
Definition checkout : TestSuite.t :=
  TestSuite.mk "npm run test:checkout" (Some true) None
    (Some [ scenario "credit-card" (Some [("CARD", "4242")]) None;
            scenario "paypal" (Some [("METHOD", "paypal")]) None ])
    None.

Definition shop : IntegrationManifest.t :=
  Sample.manifest_of [ ("postgres", Sample.depends "postgres@15" []) ]
    (Some [ ("checkout", checkout);
            ("unit", TestSuite.mk "npm run test:unit" None None None None) ])
    (Some [ ("postgres", ["14"; "15"]) ]).


(** The first scenario has an after-hook, [./cleanup.sh]. *)
Definition with_cleanup : IntegrationManifest.t :=
  Sample.manifest_of []
    (Some [ ("checkout",
             TestSuite.mk "npm run test:checkout" None None
               (Some [ scenario "credit-card" None (Some "./cleanup.sh");
                       scenario "paypal" None None ])
               None) ])
    None.

Fixpoint times_issued (cmd : string) (evs : list event) : nat :=
  match evs with
  | [] => 0
  | Issued c :: evs' =>
      (if c =? cmd then 1 else 0) + times_issued cmd evs'
  | _ :: evs' => times_issued cmd evs'
  end.

(** A platform that refuses to create a branch whose alias is taken, and a
    machine on which [./cleanup.sh] exits with code 1. *)
Definition strict_reply (history : list event) (cmd : string) : ExecResult :=
  if prefix "vers branch --alias " cmd
     && (2 <=? times_issued cmd history)%nat
  then Rejected "Command failed: branch alias already exists"
  else if cmd =? "./cleanup.sh"
  then Rejected "Command failed: ./cleanup.sh"
  else Resolved (mkOutput "ok" "").

Definition strict_env (m : IntegrationManifest.t) : env :=
  mkEnv strict_reply (fun l => Z.of_nat (List.length l))
        (fun _ => Some m) (fun _ => "name: demo") [].

(** What a scenario without hooks spawns. *)
Definition scenario_commands (prefix suiteName : string)
    (suiteConfig : TestSuite.t) (branch : TestBranch.t) : list string :=
  let alias := branchAlias prefix suiteName (TestBranch.name branch) in
  [ "vers branch --alias " ++ alias;
    "vers checkout " ++ alias;
    envStr (Js.spread (Js.spread_opt (TestSuite.env suiteConfig))
                      (Js.spread_opt (TestBranch.env branch)))
    ++ " " ++ TestSuite.command suiteConfig ].

(** The world once a scenario without before-hook has created its branch,
    checked it out and run its test command. *)
Definition after_test (prefix suiteName : string) (suiteConfig : TestSuite.t)
    (branch : TestBranch.t) (w : world) : world :=
  fold_left (fun w cmd => exec_world cmd w)
            (scenario_commands prefix suiteName suiteConfig branch) w.


End Scenarios.

Module MatrixRun.








End MatrixRun.


(** Every value the task may return satisfies [P], whatever the answers. *)
Fixpoint ensures {A : Type} (P : A -> Prop) (t : task A) : Prop :=
  match t with
  | Ret a => P a
  | Throw _ => True
  | Exec _ k => forall r, ensures P (k r)
  | DateNow k => forall n, ensures P (k n)
  | ReadFile _ k => forall r, ensures P (k r)
  | WriteFile _ _ k => ensures P k
  | Mkdir _ k => ensures P k
  | YamlParse _ k => forall r, ensures P (k r)
  | YamlStringify _ k => forall r, ensures P (k r)
  | Bind_manifest _ k => ensures P k
  | Deref k => forall r, ensures P (k r)
  | Assign_template _ _ k => ensures P k
  end.

(** Task [i] of an array of tasks ensures [P] of [xs[i]]. *)
Definition each_ensures {X A : Type} (P : X -> A -> Prop) (xs : list X)
    (ts : list (task A)) : Prop :=
  Forall2 (fun x t => ensures (P x) t) xs ts.

Module ReadOnly.







End ReadOnly.

(** *** Further vocabulary and sample projects *)

(** The manifest file of world [w] is readable and parses to [m]. *)
Definition loads (w : world) (m : IntegrationManifest.t) : Prop :=
  exists content,
    Js.get "vers-integration.yaml" (files w) = Some content
    /\ yaml_parse (environment w) content = Some m.

(** In environment [e], what [yaml.stringify] makes of [m] parses back to
    [m]. *)
Definition round_trips (e : env) (m : IntegrationManifest.t) : Prop :=
  yaml_parse e (yaml_stringify e m) = Some m.

Module Fixture.

(** A directory with no manifest file. *)
Definition empty_dir (e : env) : world := mkWorld e [] [] None [].

(** A YAML library that prints of a manifest the names of its services,
    and parses such a text to the first of the manifests [known] that it
    prints so. *)
Definition listing (m : IntegrationManifest.t) : string :=
  "services: " ++ Js.join "," (Js.keys (IntegrationManifest.services m)).

Definition codec_env (known : list IntegrationManifest.t)
    (answers : list event -> string -> ExecResult) : env :=
  mkEnv answers (fun l => Z.of_nat (List.length l))
        (fun content =>
           find (fun m => listing m =? content) known)
        listing [].

Definition always_ok (history : list event) (cmd : string) : ExecResult :=
  Resolved (mkOutput "ok" "").

(** A project directory whose manifest file holds [m]. *)
Definition holding (e : env) (m : IntegrationManifest.t) : world :=
  mkWorld e [("vers-integration.yaml", yaml_stringify e m)] [] None [].

(** No services yet. *)
Definition bare : IntegrationManifest.t :=
  Sample.manifest_of [] None None.

(** [c], then [b] that needs [c], then [a] that needs [b]: every dependency
    is declared before its dependents. *)
Definition ordered : IntegrationManifest.t :=
  Sample.manifest_of [ ("c", Sample.depends "postgres@15" []);
                       ("b", Sample.depends "redis@7" ["c"]);
                       ("a", Sample.depends "app@1" ["b"]) ] None None.

(** Every command fails with the given message. *)
Definition always_fails (message : string) (history : list event)
    (cmd : string) : ExecResult :=
  Rejected message.

End Fixture.

(** The command line of [execVers(`service stop ${svc}`)]. *)
Definition stop_cmd (svc : string) : string := "vers service stop " ++ svc.

(** The command line of [execVers(`service health ${svc} --wait`)]. *)
Definition health_cmd (svc : string) : string :=
  "vers service health " ++ svc ++ " --wait".

(** The services a call names, or all the services of the manifest:
    [services || Object.keys(manifest.services)]. *)
Definition services_or_all (services : option (list string))
    (m : IntegrationManifest.t) : list string :=
  match services with
  | Some l => l
  | None => Js.keys (IntegrationManifest.services m)
  end.

Module Stack.

(** [Fixture.bare] once [redis@7] is added under its own name. *)
Definition with_redis : IntegrationManifest.t :=
  with_service "redis"
    (merge_service "redis@7" None
       (match Js.get "redis" SERVICE_TEMPLATES with
        | Some d => d
        | None => PartialServiceConfig.empty
        end))
    Fixture.bare.

(** A YAML library that knows the manifests with and without [redis]. *)
Definition yaml : env :=
  Fixture.codec_env [Fixture.bare; with_redis] Fixture.always_ok.

End Stack.

(** The services [l] are all defined by [m], and each comes after all the
    services it depends on, which are in [earlier] or before it in [l]. *)
Fixpoint in_dependency_order (m : IntegrationManifest.t)
    (earlier l : list string) : Prop :=
  match l with
  | [] => True
  | svc :: rest =>
      (exists svcConfig,
          Js.get svc (IntegrationManifest.services m) = Some svcConfig
          /\ incl (deps_of svcConfig) earlier)
      /\ in_dependency_order m (earlier ++ [svc])%list rest
  end.

(** In environment [e] every [vers service start] succeeds, whenever it is
    spawned. *)
Definition starts_succeed (e : env) : Prop :=
  forall history svc,
    start_succeeded (vers_output (exec_reply e history (start_cmd svc))) = true.

(** The world [integration_up] starts the services in: the manifest [m] is
    loaded and the image built when [build] is set. *)
Definition built (build : option bool) (m : IntegrationManifest.t)
    (w : world) : world :=
  if Js.flag build then exec_world "vers build" (bind_manifest m w)
  else bind_manifest m w.

Module Outage.

(** The services of [Fixture.ordered], on a platform where every command
    fails. *)
Definition env_down : env :=
  Fixture.codec_env [Fixture.ordered] (Fixture.always_fails "unreachable").

Definition project : world := Fixture.holding env_down Fixture.ordered.

End Outage.

(** A result that says the test command exited with code 0 or did not. *)
Definition decided (r : TestResult.t) : Prop :=
  TestResult.status r = Status.passed \/ TestResult.status r = Status.failed.


(** The number of ways to give every dimension one of the values that
    [generate] does not skip. *)
Definition kept_count (filter : option (Js.obj string))
    (matrix : Js.obj (list string)) : nat :=
  fold_right
    (fun d n => (List.length (Matrix.kept filter (fst d) (snd d)) * n)%nat)
    1%nat matrix.

(** What a comparison of [aspects] spawns when no probe fails: for each
    aspect, a checkout of the first branch, the probe, a checkout of the
    second branch, the probe again. *)
Definition probe_commands (branch1 branch2 : string) (aspects : list Aspect)
  : list string :=
  flat_map (fun aspect => [ "vers checkout " ++ branch1; probe_cmd aspect;
                            "vers checkout " ++ branch2; probe_cmd aspect ])
           aspects.

(** The aspects compared: [aspects || ["database", "files"]]. *)
Definition aspects_or_default (aspects : option (list Aspect)) : list Aspect :=
  match aspects with
  | Some l => l
  | None => [database; files_aspect]
  end.

(** Some single quote of [s] does not come right after a backslash
    ([after_backslash] says whether the character before [s] is one). *)
Fixpoint unescaped_quote (after_backslash : bool) (s : string) : bool :=
  match s with
  | EmptyString => false
  | String c rest =>
      (Ascii.eqb c "'"%char && negb after_backslash)
      || unescaped_quote (Ascii.eqb c "\"%char) rest
  end.

(** A backslash followed by a single quote is read as the quote. *)
Fixpoint unescape (s : string) : string :=
  match s with
  | EmptyString => EmptyString
  | String c rest =>
      match rest with
      | String c' rest' =>
          if Ascii.eqb c "\"%char && Ascii.eqb c' "'"%char
          then String c' (unescape rest')
          else String c (unescape rest)
      | EmptyString => String c EmptyString
      end
  end.

(** The name of the branch of a scenario: [`${prefix}-${scenario}`]. *)
Definition web_branch (prefix scenario : string) : string :=
  prefix ++ "-" ++ scenario.

(** The command line of [vers_execute]. *)
Definition execute_cmd (command : string) (service : option string)
    (interactive : option bool) : string :=
  "vers execute "
  ++ Js.join " "
       ((if Js.truthy_opt service
         then [("--service " ++ Js.or_else service "")%string] else [])
        ++ (if Js.flag interactive then ["--detach"] else []))%list
  ++ " " ++ Js.dq ++ command ++ Js.dq.

(** The command line of the deployment, as [integration_deploy] builds it:
    the domain when one is given, and [--wait] unless [wait] is [false]. *)
Definition deploy_cmd (environment : Environment) (domain : option string)
    (wait : option bool) : string :=
  "vers integration deploy --environment " ++ environment_name environment
  ++ (if Js.truthy_opt domain then " --domain " ++ Js.or_else domain ""
      else "")
  ++ (match wait with
      | Some false => ""
      | _ => " --wait"
      end).

(** The deploy configuration of an environment:
    [manifest.deploy?.[environment]]. *)
Definition deploy_config (m : IntegrationManifest.t)
    (environment : Environment) : option DeployConfig.t :=
  match IntegrationManifest.deploy m with
  | Some d => Js.get (environment_name environment) d
  | None => None
  end.

(** The alias of the first branch a suite creates: that of its first
    scenario, or its own when it has none. *)
Definition first_alias (prefix suiteName : string) (suiteConfig : TestSuite.t)
  : string :=
  match TestSuite.branches suiteConfig with
  | Some (b :: _) => branchAlias prefix suiteName (TestBranch.name b)
  | _ => prefix ++ "-" ++ suiteName
  end.

Module Release.

(** A project with a deploy configuration for [staging] only. *)
Definition manifest : IntegrationManifest.t :=
  IntegrationManifest.mk "demo" "1.0.0" None (Vm.mk 2048 2 8000)
    [] None None None
    (Some [ ("staging",
             DeployConfig.mk "vers.sh/hosted" (Some "demo-staging.vers.sh")
                             None None None) ]).

Definition project : world :=
  Sample.project (Sample.quiet_env manifest []).

End Release.

(* ======================================================================== *)
(** * Properties *)

Import Sample Matrix Scenarios MatrixRun ReadOnly.

(* ------------------------------------------------------------------------ *)
(** ** Reasoning about runs *)

Lemma issued_app (a b : list event) :
  issued (a ++ b) = (issued a ++ issued b)%list.
Proof.
  induction a as [|e a IH]; simpl; [reflexivity|].
  destruct e; simpl; now rewrite IH.
Qed.

Lemma run_bind {A B : Type} (t : task A) (f : A -> task B) (w : world) :
  run (bind t f) w =
  match run t w with
  | (w1, Returned a) => run (f a) w1
  | (w1, Threw e) => (w1, Threw e)
  end.
Proof.
  revert w; induction t; intro w; simpl; auto.
Qed.

Lemma run_try_catch {A : Type} (t : task A) (h : string -> task A) (w : world) :
  run (try_catch t h) w =
  match run t w with
  | (w1, Returned a) => (w1, Returned a)
  | (w1, Threw e) => run (h e) w1
  end.
Proof.
  revert w; induction t; intro w; simpl; auto.
Qed.

Lemma run_execAsync (cmd : string) (w : world) :
  run (execAsync cmd) w =
  (exec_world cmd w,
   match exec_answer cmd w with
   | Resolved out => Returned out
   | Rejected message => Threw message
   end).
Proof.
  unfold execAsync, exec_world, exec_answer; simpl.
  destruct (exec_reply _ _ _); reflexivity.
Qed.

Lemma run_execVers (command : string) (w : world) :
  run (execVers command) w =
  (exec_world ("vers " ++ command) w,
   Returned (vers_output (exec_answer ("vers " ++ command) w))).
Proof.
  unfold execVers. rewrite run_try_catch, run_execAsync.
  destruct (exec_answer _ w); reflexivity.
Qed.

Lemma log_exec_world (cmd : string) (w : world) :
  log (exec_world cmd w) =
  (log w ++ [Issued cmd; Settled cmd (exec_answer cmd w)])%list.
Proof.
  unfold exec_world, record; simpl. now rewrite <- app_assoc.
Qed.

Lemma extends_refl (w : world) : extends w w.
Proof. exists []. now rewrite app_nil_r. Qed.

Lemma extends_trans (a b c : world) : extends a b -> extends b c -> extends a c.
Proof.
  intros [e1 H1] [e2 H2]. exists (e1 ++ e2)%list.
  now rewrite H2, H1, app_assoc.
Qed.

Lemma extends_record (e : event) (w : world) : extends w (record e w).
Proof. now exists [e]. Qed.

Lemma extends_write_file (p c : string) (w : world) :
  extends w (write_file p c w).
Proof. now exists [Wrote p c]. Qed.

Lemma extends_make_dir (p : string) (w : world) : extends w (make_dir p w).
Proof. now exists [MadeDir p]. Qed.

Lemma extends_bind_manifest (m : IntegrationManifest.t) (w : world) :
  extends w (bind_manifest m w).
Proof. exists []. simpl. now rewrite app_nil_r. Qed.

Lemma extends_assign_template (s tpl : string) (w : world) :
  extends w (assign_template s tpl w).
Proof. exists []. simpl. now rewrite app_nil_r. Qed.

Create HintDb runs.
#[local] Hint Resolve extends_refl extends_record extends_write_file
  extends_make_dir extends_bind_manifest extends_assign_template : runs.

Lemma run_extends {A : Type} (t : task A) (w : world) :
  extends w (fst (run t w)).
Proof.
  revert w; induction t; intro w; simpl; auto with runs;
    try (eapply extends_trans; [|apply IHt]; auto with runs).
  eapply extends_trans; [|apply H].
  eapply extends_trans; apply extends_record.
Qed.

Lemma advance_extends {A : Type} (t : task A) (w : world) :
  extends w (fst (advance t w)).
Proof.
  revert w; induction t; intro w; simpl; auto with runs;
    try (eapply extends_trans; [|apply IHt]; auto with runs).
Qed.

Lemma settle_extends {A : Type} (t : task A) (w : world) :
  extends w (fst (settle t w)).
Proof.
  destruct t; simpl; try apply extends_refl.
  eapply extends_trans; [apply extends_record | apply advance_extends].
Qed.

Lemma finish_extends {A : Type} (t : task A) (w : world) :
  extends w (fst (finish t w)).
Proof.
  destruct t; try apply (run_extends _ w).
  unfold finish.
  eapply extends_trans; [apply extends_record | apply run_extends].
Qed.


Lemma settle_in_order_extends {A : Type} (order : list nat)
    (ts : list (task A)) (w : world) :
  extends w (fst (settle_in_order order ts w)).
Proof.
  revert ts w; induction order as [|i order IH]; intros ts w; simpl.
  - apply extends_refl.
  - destruct (first_rejection ts); [apply extends_refl|].
    destruct (nth_error ts i) as [t|]; [|apply IH].
    pose proof (settle_extends t w) as Hs.
    destruct (settle t w) as [w1 t1]; simpl in Hs.
    eapply extends_trans; [exact Hs | apply IH].
Qed.

Lemma drain_extends {A : Type} (ts : list (task A)) (w : world) :
  extends w (fst (drain ts w)).
Proof.
  revert w; induction ts as [|t ts IH]; intro w.
  - apply extends_refl.
  - cbn [drain].
    destruct (first_rejection (t :: ts)); [apply extends_refl|].
    pose proof (finish_extends t w) as Hf.
    destruct (finish t w) as [w1 [a|e]]; simpl in Hf; [|exact Hf].
    pose proof (IH w1) as Hd.
    destruct (drain ts w1) as [w2 [l|e]]; simpl in *;
      eapply extends_trans; eauto.
Qed.



(* ------------------------------------------------------------------------ *)
(** ** The service launcher *)




(** C1, at the manifest [Sample.chain] (acyclic: [a] needs [b], [b] needs
    [c]) with every start succeeding: [integration_up] spawns
    [service start b] first and [service start a] second, and only then the
    first [service start c].  So [b] is started before its own dependency
    [c], and [a] before its transitive dependency [c]: the loop starts the
    direct dependencies of the service at hand and never looks at theirs. *)
Theorem integration_up_chain_starts_b_before_c :
  issued (log (fst (run (integration_up None None None)
                        (Sample.project (Sample.quiet_env Sample.chain [])))))
  = [ "vers service start b"; "vers service start a";
      "vers service start c"; "vers service start b";
      "vers service start c";
      "vers service health b --wait"; "vers service health a --wait";
      "vers service health c --wait"; "vers service health b --wait";
      "vers service health c --wait" ].
Proof. vm_compute. reflexivity. Qed.

(* ------------------------------------------------------------------------ *)
(** ** Chaos injection *)

(** C6: whatever the service, the action, the duration, the intensity and
    the world, [chaos_inject] returns, and what it adds to the log is, in
    this order: the commit of the checkpoint [pre-chaos-<service>-<ts>] being
    spawned, that commit settling, the chaos command being spawned, the chaos
    command settling.  The report's [rollback_checkpoint] is that tag. *)
Theorem chaos_inject_commits_before_acting (service : string)
    (action : ChaosAction) (duration : option string) (intensity : option Z)
    (w : world) :
  let tag := chaos_checkpoint service w in
  let chaos := "vers " ++ chaosCommand service action duration intensity in
  exists w' r1 r2 report,
    run (chaos_inject service action duration intensity) w
      = (w', Returned report)
    /\ log w' = (log w ++ [ Issued (commit_cmd tag);
                            Settled (commit_cmd tag) r1;
                            Issued chaos;
                            Settled chaos r2 ])%list
    /\ rollback_checkpoint report = tag.
Proof.
  intros tag chaos. unfold chaos_inject.
  rewrite run_bind. cbn [run].
  rewrite run_bind, run_execVers. rewrite run_bind, run_execVers. cbn [run].
  do 4 eexists. split; [reflexivity|]. split; [|reflexivity].
  rewrite !log_exec_world, <- app_assoc. reflexivity.
Qed.

(** C7, against the claim: with no intensity given, [disk-fill] interpolates
    95, not 80; and an intensity of 150 given to [cpu-stress] goes into the
    command as it is. *)
Lemma chaos_intensity_counterexample :
  used_intensity disk_fill None = Some 95%Z
  /\ issued (log (fst (run (chaos_inject "postgres" disk_fill None None)
                           (Sample.project
                              (Sample.quiet_env Sample.chain [])))))
     = [ commit_cmd "pre-chaos-postgres-0";
         "vers execute --service postgres " ++ Js.dq ++
         "fallocate -l $(df / | awk 'NR==2 {print int($4*95/100)}')K /tmp/fill"
         ++ Js.dq ]
  /\ used_intensity cpu_stress (Some 150%Z) = Some 150%Z
  /\ issued (log (fst (run (chaos_inject "postgres" cpu_stress None
                              (Some 150%Z))
                           (Sample.project
                              (Sample.quiet_env Sample.chain [])))))
     = [ commit_cmd "pre-chaos-postgres-0";
         "vers execute --service postgres " ++ Js.dq ++
         "stress-ng --cpu 2 --cpu-load 150 --timeout 30s" ++ Js.dq ].
Proof. vm_compute. repeat split; reflexivity. Qed.

(** C7, amended: for a stress action the command interpolates the number
    [v = used_intensity action intensity]; with the intensity omitted [v] is
    80 for [cpu-stress] and [memory-stress] and 95 for [disk-fill]; and
    whenever the intensity given (if any) lies within 0..100, so does [v]. *)
Theorem stress_intensity_default_and_range (service : string)
    (action : ChaosAction) (duration : option string) (intensity : option Z)
    (v : Z) :
  used_intensity action intensity = Some v ->
  chaosCommand service action duration intensity
    = stress_command service action duration v
  /\ (intensity = None ->
      v = match action with disk_fill => 95 | _ => 80 end)%Z
  /\ ((forall n, intensity = Some n -> 0 <= n <= 100) -> 0 <= v <= 100)%Z.
Proof.
  intro Hv.
  assert (Hrange : forall d, (0 <= d <= 100)%Z ->
            (forall n, intensity = Some n -> (0 <= n <= 100)%Z) ->
            (0 <= Js.or_num intensity d <= 100)%Z).
  { intros d Hd Hn. unfold Js.or_num. destruct intensity as [n|]; [|exact Hd].
    destruct (n =? 0)%Z; [exact Hd | now apply Hn]. }
  destruct action; simpl in Hv; try discriminate;
    injection Hv as <-; (split; [reflexivity|]); split.
  all: try (intros ->; reflexivity).
  all: intro Hn; apply Hrange; [lia | exact Hn].
Qed.

Lemma stress_intensity_default_and_range_witness :
  chaosCommand "postgres" memory_stress None (Some 60%Z)
    = stress_command "postgres" memory_stress None 60
  /\ (Some 60%Z = None ->
      60 = match memory_stress with disk_fill => 95 | _ => 80 end)%Z
  /\ ((forall n, Some 60%Z = Some n -> 0 <= n <= 100) -> 0 <= 60 <= 100)%Z.
Proof.
  exact (stress_intensity_default_and_range
           "postgres" memory_stress None (Some 60%Z) eq_refl).
Defined.

(* ------------------------------------------------------------------------ *)
(** ** Project initialisation *)

(** C10: when the manifest file is there and parses to a manifest
    [existing], [integration_init] answers [Project already initialized:
    <existing name>] and leaves the files, the directories and the log as
    they were: nothing is written, no directory is made, no command is
    spawned.  This holds for every [name] and [template]. *)
Theorem integration_init_existing_project_untouched (name : string)
    (template : option ProjectTemplate) (w : world) (content : string)
    (existing : IntegrationManifest.t) :
  Js.get "vers-integration.yaml" (files w) = Some content ->
  yaml_parse (environment w) content = Some existing ->
  snd (run (integration_init name template) w)
    = Returned (InitText ("Project already initialized: "
                          ++ IntegrationManifest.name existing))
  /\ files (fst (run (integration_init name template) w)) = files w
  /\ dirs (fst (run (integration_init name template) w)) = dirs w
  /\ log (fst (run (integration_init name template) w)) = log w.
Proof.
  intros Hfile Hparse. unfold integration_init, readManifest. simpl.
  rewrite Hfile. simpl. rewrite Hparse. simpl. repeat split; reflexivity.
Qed.

Lemma integration_init_existing_project_untouched_witness :
  let w := Sample.project (Sample.quiet_env Sample.chain []) in
  snd (run (integration_init "shop" (Some ecommerce)) w)
    = Returned (InitText ("Project already initialized: " ++ "demo"))
  /\ files (fst (run (integration_init "shop" (Some ecommerce)) w)) = files w
  /\ dirs (fst (run (integration_init "shop" (Some ecommerce)) w)) = dirs w
  /\ log (fst (run (integration_init "shop" (Some ecommerce)) w)) = log w.
Proof.
  exact (integration_init_existing_project_untouched
           "shop" (Some ecommerce)
           (Sample.project (Sample.quiet_env Sample.chain []))
           (content := "name: demo") (existing := Sample.chain)
           eq_refl eq_refl).
Defined.

(* ------------------------------------------------------------------------ *)
(** ** The matrix combination generator *)

Lemma set_over_stale (key v : string) (keys : list string)
    (p stale : combination) :
  ~ In key (map fst p) ->
  stale_of (key :: keys) stale ->
  exists tail,
    stale_of keys tail
    /\ Js.set key v (p ++ stale)%list = ((p ++ [(key, v)]) ++ tail)%list.
Proof.
  intros Hnot Hst. induction p as [|[k' v'] p IH]; simpl.
  - inversion Hst; subst.
    + exists []. split; [constructor | reflexivity].
    + exists st. split; [assumption|]. simpl. now rewrite String.eqb_refl.
  - simpl in Hnot.
    destruct (String.eqb_spec key k') as [->|Hne]; [tauto|].
    destruct IH as [tail [Ht He]]; [tauto|].
    exists tail. split; [assumption|]. now rewrite He.
Qed.

Section Generate.
Variable matrix : Js.obj (list string).
Variable filter : option (Js.obj string).

(** The loop [for (const version of versions)] at dimension [key], the
    deeper calls behaving as [Hdeep] says. *)
Lemma generate_versions (key : string) (dims' : list (string * list string))
    (p : combination) :
  ~ In key (map fst p) ->
  (forall v stale acc,
      stale_of (map fst dims') stale ->
      exists stale',
        stale_of (map fst dims') stale'
        /\ generate matrix filter (map fst dims')
             (((p ++ [(key, v)]) ++ stale)%list, acc)
           = (((p ++ [(key, v)]) ++ stale')%list,
              (acc ++ map (app (p ++ [(key, v)]))
                          (cartesian (kept_dims filter dims')))%list)) ->
  forall versions stale acc,
    stale_of (key :: map fst dims') stale ->
    exists stale',
      stale_of (key :: map fst dims') stale'
      /\ fold_left
           (fun st version =>
              if filtered_out filter key version then st
              else generate matrix filter (map fst dims')
                     (Js.set key version (fst st), snd st))
           versions ((p ++ stale)%list, acc)
         = ((p ++ stale')%list,
            (acc ++ map (app p)
                        (flat_map
                           (fun v => map (cons (key, v))
                                         (cartesian (kept_dims filter dims')))
                           (kept filter key versions)))%list).
Proof.
  intros Hnot Hdeep versions.
  induction versions as [|v versions IH]; intros stale acc Hst; simpl.
  - exists stale. split; [assumption|]. now rewrite app_nil_r.
  - destruct (filtered_out filter key v) eqn:Hf; simpl.
    + apply IH; assumption.
    + destruct (@set_over_stale key v (map fst dims') p stale Hnot Hst)
        as [tail [Htail Hset]].
      rewrite Hset.
      destruct (Hdeep v tail acc Htail) as [st1 [Hst1 Hgen]].
      unfold combination, Js.obj in *. rewrite Hgen.
      replace ((p ++ [(key, v)]) ++ st1)%list
        with (p ++ (key, v) :: st1)%list
        by (now rewrite <- app_assoc).
      destruct (IH ((key, v) :: st1)
                   (acc ++ map (app (p ++ [(key, v)]))
                               (cartesian (kept_dims filter dims')))%list)
        as [st2 [Hst2 Hfold]]; [now constructor|].
      exists st2. split; [assumption|].
      rewrite Hfold. f_equal.
      rewrite <- app_assoc. f_equal.
      rewrite map_app, map_map. f_equal.
      apply map_ext. intro c. now rewrite <- app_assoc.
Qed.

(** [generate] from dimension [index] on, where [p] are the assignments of
    the dimensions before it: it pushes [p] extended by every member of the
    product of the remaining dimensions, in order. *)
Lemma generate_from (dims : list (string * list string)) :
  (forall d, In d dims -> versions_of matrix (fst d) = snd d) ->
  forall p stale acc,
    NoDup (map fst p ++ map fst dims) ->
    stale_of (map fst dims) stale ->
    exists stale',
      stale_of (map fst dims) stale'
      /\ generate matrix filter (map fst dims) ((p ++ stale)%list, acc)
         = ((p ++ stale')%list,
            (acc ++ map (app p) (cartesian (kept_dims filter dims)))%list).
Proof.
  induction dims as [|[key versions] dims' IH]; intros Hvs p stale acc Hnd Hst.
  - inversion Hst; subst. exists []. split; [constructor|]. reflexivity.
  - cbn [map fst generate cartesian kept_dims].
    pose proof (Hvs (key, versions) (or_introl eq_refl)) as Hv.
    cbn [fst snd] in Hv. rewrite Hv.
    simpl in Hnd.
    apply generate_versions; [ | | exact Hst].
    + apply NoDup_remove_2 in Hnd. intro Hin. apply Hnd.
      apply in_or_app. now left.
    + intros v st acc' Hst'.
      apply IH.
      * intros d Hd. apply Hvs. now right.
      * rewrite map_app. simpl. now rewrite <- app_assoc.
      * exact Hst'.
Qed.

End Generate.

Lemma get_of_unique_key {V : Type} (o : Js.obj V) (d : string * V) :
  NoDup (Js.keys o) -> In d o -> Js.get (fst d) o = Some (snd d).
Proof.
  induction o as [|[k v] o IH]; intros Hnd Hin; [contradiction|].
  simpl in *. inversion Hnd as [|? ? Hk Hnd']; subst.
  destruct Hin as [<-|Hin]; simpl.
  - now rewrite String.eqb_refl.
  - destruct (String.eqb_spec (fst d) k) as [<-|Hne].
    + exfalso. apply Hk. apply in_map_iff. now exists d.
    + now apply IH.
Qed.






(* ------------------------------------------------------------------------ *)
(** ** The scenario branch executor *)

Lemma run_readManifest_some (w : world) (content : string)
    (m : IntegrationManifest.t) :
  Js.get "vers-integration.yaml" (files w) = Some content ->
  yaml_parse (environment w) content = Some m ->
  run readManifest w = (bind_manifest m w, Returned (Some m)).
Proof.
  intros Hfile Hparse. unfold readManifest. simpl.
  rewrite Hfile. simpl. now rewrite Hparse.
Qed.

Lemma run_now (w : world) :
  run now w = (w, Returned (date_now (environment w) (log w))).
Proof. reflexivity. Qed.



Lemma run_run_command (suiteName branchName cmd : string) (w : world) :
  exists result,
    run (run_command suiteName branchName cmd) w
      = (exec_world cmd w, Returned result)
    /\ TestResult.suite result = suiteName
    /\ TestResult.branch result = branchName
    /\ TestResult.status result
       = match exec_answer cmd w with
         | Resolved _ => Status.passed
         | Rejected _ => Status.failed
         end.
Proof.
  unfold run_command. rewrite run_bind, run_now, run_try_catch.
  rewrite run_bind, run_execAsync.
  destruct (exec_answer cmd w) as [out|message].
  - rewrite run_bind, run_now. cbn [run]. eexists. repeat split.
  - rewrite run_bind, run_now. cbn [run]. eexists. repeat split.
Qed.

Lemma run_hook_absent (hook : option string) (w : world) :
  Js.truthy_opt hook = false -> run (run_hook hook) w = (w, Returned tt).
Proof. intro H. unfold run_hook. now rewrite H. Qed.


(** A rejected after-hook rejects the whole loop over the scenarios: the
    result the scenario has just recorded, the results of the scenarios
    before it ([acc]) and the scenarios after it ([rest]) are all dropped. *)
Lemma run_scenarios_after_hook_rejected (prefix suiteName : string)
    (suiteConfig : TestSuite.t) (branch : TestBranch.t)
    (rest : list TestBranch.t) (acc : list TestResult.t) (w : world)
    (hook message : string) :
  Js.truthy_opt (TestBranch.before branch) = false ->
  TestBranch.after branch = Some hook ->
  Js.truthy hook = true ->
  exec_answer hook (after_test prefix suiteName suiteConfig branch w)
    = Rejected message ->
  run (run_scenarios prefix suiteName suiteConfig (branch :: rest) acc) w
  = (exec_world hook (after_test prefix suiteName suiteConfig branch w),
     Threw message).
Proof.
  intros Hbefore Hafter Htruthy Hanswer.
  cbn [run_scenarios]. unfold run_scenario.
  rewrite run_bind, run_bind, run_execVers, run_bind, run_execVers.
  rewrite run_bind, (run_hook_absent _ _ Hbefore), run_bind.
  match goal with
  | |- context [run (run_command ?s ?b ?c) ?w1] =>
      destruct (run_run_command s b c w1) as [result [Hrun _]]
  end.
  rewrite Hrun, run_bind. unfold run_hook. rewrite Hafter.
  cbn [Js.truthy_opt Js.or_else]. rewrite Htruthy.
  rewrite run_bind, run_execAsync.
  match goal with
  | |- context [exec_answer hook ?w3] =>
      change w3 with (after_test prefix suiteName suiteConfig branch w)
  end.
  now rewrite Hanswer.
Qed.


(** C9, at the manifest [Scenarios.with_cleanup] on a machine where the
    after-hook [./cleanup.sh] of the first scenario exits with code 1 (its
    test command succeeds): the sequential run is rejected with the hook's
    error, so no result at all is returned, and the second scenario is never
    started: the hook is the last command spawned. *)
Theorem integration_test_after_hook_failure_rejects_run :
  snd (integration_test None None None
         (Sample.project (Scenarios.strict_env Scenarios.with_cleanup)))
    = Threw "Command failed: ./cleanup.sh"
  /\ issued (log (fst (integration_test None None None
                         (Sample.project
                            (Scenarios.strict_env Scenarios.with_cleanup)))))
     = [ commit_cmd "test-baseline-0";
         "vers branch --alias test-checkout-credit-card";
         "vers checkout test-checkout-credit-card";
         " npm run test:checkout";
         "./cleanup.sh" ].
Proof. vm_compute. split; reflexivity. Qed.




(* ------------------------------------------------------------------------ *)
(** ** Matrix runs *)







(* ------------------------------------------------------------------------ *)
(** ** What concurrent tasks return *)

Section Ensure.

Variables X A : Type.
Variable P : X -> A -> Prop.

Lemma ensures_bind {B : Type} (Q : A -> Prop) (t : task B) (f : B -> task A) :
  (forall b, ensures Q (f b)) -> ensures Q (bind t f).
Proof. intro Hf. induction t; simpl; auto. Qed.

Lemma run_ensures (Q : A -> Prop) (t : task A) :
  forall w w' a, ensures Q t -> run t w = (w', Returned a) -> Q a.
Proof.
  induction t; intros w w' a0 Ht Hrun; simpl in *;
    try discriminate; try (injection Hrun as _ <-; assumption); eauto.
Qed.

Lemma advance_ensures (Q : A -> Prop) (t : task A) :
  forall w, ensures Q t -> ensures Q (snd (advance t w)).
Proof. induction t; intros w Ht; simpl in *; auto. Qed.

Lemma settle_ensures (Q : A -> Prop) (t : task A) (w : world) :
  ensures Q t -> ensures Q (snd (settle t w)).
Proof.
  intro Ht. destruct t; simpl in *; auto.
  apply advance_ensures. apply Ht.
Qed.

Lemma finish_ensures (Q : A -> Prop) (t : task A) (w w' : world) (a : A) :
  ensures Q t -> finish t w = (w', Returned a) -> Q a.
Proof.
  intros Ht Hf. destruct t; try (eapply run_ensures; eassumption).
  unfold finish in Hf. eapply run_ensures; [|exact Hf]. apply Ht.
Qed.

Lemma start_all_ensures (xs : list X) (ts : list (task A)) :
  each_ensures P xs ts ->
  forall w, each_ensures P xs (snd (start_all ts w)).
Proof.
  induction 1 as [|x t xs ts Ht Hts IH]; intro w; simpl; [constructor|].
  pose proof (advance_ensures (P x) t w Ht) as Ha.
  destruct (advance t w) as [w1 t1]. simpl in Ha.
  specialize (IH w1). destruct (start_all ts w1) as [w2 ts1].
  now constructor.
Qed.

Lemma replace_nth_ensures (xs : list X) (ts : list (task A)) :
  each_ensures P xs ts ->
  forall i t t',
    nth_error ts i = Some t ->
    (forall x, ensures (P x) t -> ensures (P x) t') ->
    each_ensures P xs (replace_nth i t' ts).
Proof.
  induction 1 as [|x t0 xs ts Ht Hts IH]; intros i t t' Hnth Himp.
  - destruct i; constructor.
  - destruct i as [|i]; simpl in *.
    + injection Hnth as ->. constructor; auto.
    + constructor; [assumption | eapply IH; eauto].
Qed.

Lemma settle_in_order_ensures (order : list nat) :
  forall (xs : list X) (ts : list (task A)) (w : world),
    each_ensures P xs ts ->
    each_ensures P xs (snd (settle_in_order order ts w)).
Proof.
  induction order as [|i order IH]; intros xs ts w Hts; simpl; [exact Hts|].
  destruct (first_rejection ts); [exact Hts|].
  destruct (nth_error ts i) as [t|] eqn:Hnth; [|now apply IH].
  pose proof (fun x => @settle_ensures (P x) t w) as Hs.
  destruct (settle t w) as [w1 t1]. simpl in Hs.
  apply IH. eapply replace_nth_ensures; eauto.
Qed.

Lemma drain_ensures (xs : list X) (ts : list (task A)) :
  each_ensures P xs ts ->
  forall w w' l, drain ts w = (w', Returned l) -> Forall2 P xs l.
Proof.
  induction 1 as [|x t xs ts Ht Hts IH]; intros w w' l Hd.
  - injection Hd as _ <-. constructor.
  - cbn [drain] in Hd.
    destruct (first_rejection (t :: ts)); [discriminate|].
    destruct (finish t w) as [w1 [a|e]] eqn:Hf; [|discriminate].
    destruct (drain ts w1) as [w2 [l'|e]] eqn:Hd'; [|discriminate].
    injection Hd as _ <-.
    constructor; [eapply finish_ensures; eauto | eapply IH; eauto].
Qed.

(** When [Promise.all] is fulfilled, its values are those of the tasks, one
    per element and in the order of the array. *)
Lemma promise_all_ensures (f : X -> task A) (xs : list X) (w w' : world)
    (l : list A) :
  (forall x, ensures (P x) (f x)) ->
  promise_all (map f xs) w = (w', Returned l) ->
  Forall2 P xs l.
Proof.
  intros Hf Hall. unfold promise_all in Hall.
  assert (H0 : each_ensures P xs (map f xs)).
  { unfold each_ensures. clear Hall.
    induction xs as [|x xs IH]; simpl; constructor; [apply Hf | exact IH]. }
  pose proof (start_all_ensures H0 w) as H1.
  destruct (start_all (map f xs) w) as [w1 ts1]. simpl in H1.
  pose proof (settle_in_order_ensures (settle_order (environment w)) w1 H1)
    as H2.
  destruct (settle_in_order _ ts1 w1) as [w2 ts2]. simpl in H2.
  eapply drain_ensures; eauto.
Qed.

End Ensure.



(** The handler once the manifest is loaded and has a matrix. *)
Lemma integration_matrix_loaded (filter : option (Js.obj string))
    (parallel continue_on_failure : option bool) (w : world)
    (content : string) (manifest : IntegrationManifest.t)
    (matrix : Js.obj (list string)) :
  Js.get "vers-integration.yaml" (files w) = Some content ->
  yaml_parse (environment w) content = Some manifest ->
  IntegrationManifest.matrix manifest = Some matrix ->
  integration_matrix filter parallel continue_on_failure w
  = and_then
      (if Js.flag parallel
       then promise_all (map runCombination (combinations_of matrix filter))
       else await (run_combinations continue_on_failure
                     (combinations_of matrix filter) []))
      (fun results =>
         reply (MatrixDone
                  (mkMatrixReport matrix
                     (List.length (combinations_of matrix filter))
                     (count_matrix Status.passed results)
                     (count_matrix Status.failed results)
                     results)))
      (bind_manifest manifest w).
Proof.
  intros Hfile Hparse Hmatrix.
  unfold integration_matrix, and_then at 1, await at 1.
  rewrite (run_readManifest_some w Hfile Hparse), Hmatrix. reflexivity.
Qed.



(* ------------------------------------------------------------------------ *)
(** ** What a run may change *)

(** A relation between the world before and the world after that every step
    of a task keeps is kept by the task run alone, and by any number of such
    tasks run concurrently, in whatever order their commands settle. *)
Section Respect.

Variable R : world -> world -> Prop.
Hypothesis R_refl : forall w, R w w.
Hypothesis R_trans : forall a b c, R a b -> R b c -> R a c.
Hypothesis R_record : forall e w, R w (record e w).















(** The tasks of [integration_test] have no state-changing node at all. *)






End Respect.















Section Combinations.
Variable dims : list string.




End Combinations.










(* ======================================================================== *)
(** * Further properties of the server *)

(* ------------------------------------------------------------------------ *)
(** ** Objects *)

Lemma get_set_same {V : Type} (k : string) (v : V) (o : Js.obj V) :
  Js.get k (Js.set k v o) = Some v.
Proof.
  induction o as [|[k' v'] o IH]; simpl.
  - now rewrite String.eqb_refl.
  - destruct (k =? k') eqn:E; simpl; rewrite E; [reflexivity | exact IH].
Qed.

Lemma get_set_other {V : Type} (k k' : string) (v : V) (o : Js.obj V) :
  k' <> k -> Js.get k' (Js.set k v o) = Js.get k' o.
Proof.
  intro Hne. induction o as [|[k0 v0] o IH]; simpl.
  - destruct (String.eqb_spec k' k); [contradiction | reflexivity].
  - destruct (String.eqb_spec k k0) as [->|Hk]; simpl.
    + destruct (String.eqb_spec k' k0); [contradiction | reflexivity].
    + destruct (k' =? k0); [reflexivity | exact IH].
Qed.

Lemma set_set_same {V : Type} (k : string) (v1 v2 : V) (o : Js.obj V) :
  Js.set k v2 (Js.set k v1 o) = Js.set k v2 o.
Proof.
  induction o as [|[k' v'] o IH]; simpl.
  - now rewrite String.eqb_refl.
  - destruct (k =? k') eqn:E; simpl; rewrite E; [reflexivity | now rewrite IH].
Qed.

Lemma delete_set_new {V : Type} (k : string) (v : V) (o : Js.obj V) :
  Js.get k o = None -> delete_key k (Js.set k v o) = o.
Proof.
  induction o as [|[k' v'] o IH]; simpl; intro Hget.
  - now rewrite String.eqb_refl.
  - destruct (k =? k') eqn:E; [discriminate|]. simpl. rewrite E.
    now rewrite IH.
Qed.




Lemma run_readManifest_loads (w : world) (m : IntegrationManifest.t) :
  loads w m -> run readManifest w = (bind_manifest m w, Returned (Some m)).
Proof.
  intros [content [Hfile Hparse]]. now apply run_readManifest_some with content.
Qed.

Lemma run_writeManifest (m : IntegrationManifest.t) (w : world) :
  run (writeManifest m) w
  = (write_file "vers-integration.yaml"
       (yaml_stringify (environment w) m) w, Returned tt).
Proof. reflexivity. Qed.

(* ------------------------------------------------------------------------ *)
(** ** The utility functions *)

(** X1: [execVers] never rejects.  Whatever the command and whatever it
    does, the call returns: the output of the command when it exits with
    code 0, and [{ stdout: "", stderr: message }] when [exec] fails with
    [message].  One command is spawned and awaited. *)
Theorem execVers_never_rejects (command : string) (w : world) :
  exists out,
    snd (run (execVers command) w) = Returned out
    /\ log (fst (run (execVers command) w))
       = (log w ++ [ Issued ("vers " ++ command);
                     Settled ("vers " ++ command)
                       (exec_answer ("vers " ++ command) w) ])%list
    /\ match exec_answer ("vers " ++ command) w with
       | Resolved o => out = o
       | Rejected message => out = mkOutput "" message
       end.
Proof.
  rewrite run_execVers. cbn [fst snd].
  exists (vers_output (exec_answer ("vers " ++ command) w)).
  split; [reflexivity|]. split; [apply log_exec_world|].
  destruct (exec_answer _ w); reflexivity.
Qed.

(** X2: with a YAML library that parses back what it prints of [m],
    [readManifest] after [writeManifest m] returns [m], and the manifest
    file holds the printed [m] whatever it held before. *)
Theorem writeManifest_readManifest_round_trip (m : IntegrationManifest.t)
    (w : world) :
  round_trips (environment w) m ->
  snd (run (writeManifest m ;; readManifest) w) = Returned (Some m)
  /\ Js.get "vers-integration.yaml"
        (files (fst (run (writeManifest m ;; readManifest) w)))
     = Some (yaml_stringify (environment w) m).
Proof.
  intro Hround. rewrite run_bind, run_writeManifest.
  assert (Hloads : loads (write_file "vers-integration.yaml"
                            (yaml_stringify (environment w) m) w) m).
  { exists (yaml_stringify (environment w) m). split; [|exact Hround].
    cbn [write_file files]. apply get_set_same. }
  rewrite (run_readManifest_loads Hloads). cbn [fst snd bind_manifest files].
  split; [reflexivity | apply get_set_same].
Qed.

Lemma writeManifest_readManifest_round_trip_witness :
  let w := Fixture.empty_dir
             (Fixture.codec_env [Fixture.ordered] Fixture.always_ok) in
  snd (run (writeManifest Fixture.ordered ;; readManifest) w)
    = Returned (Some Fixture.ordered)
  /\ Js.get "vers-integration.yaml"
        (files (fst (run (writeManifest Fixture.ordered ;; readManifest) w)))
     = Some "services: c,b,a".
Proof.
  exact (@writeManifest_readManifest_round_trip Fixture.ordered
           (Fixture.empty_dir
              (Fixture.codec_env [Fixture.ordered] Fixture.always_ok))
           eq_refl).
Defined.

(* ------------------------------------------------------------------------ *)
(** ** [integration_init] on a new project *)

Lemma run_readManifest_none (w : world) :
  snd (run readManifest w) = Returned None ->
  run readManifest w = (w, Returned None).
Proof.
  unfold readManifest. cbn [run].
  destruct (Js.get "vers-integration.yaml" (files w)); [|reflexivity].
  cbn [run]. destruct (yaml_parse (environment w) s); [|reflexivity].
  cbn [run snd]. discriminate.
Qed.

Lemma apply_template_name (t : ProjectTemplate) (name : string) :
  IntegrationManifest.name (apply_template t (base_manifest name)) = name.
Proof. destruct t; reflexivity. Qed.

(** What [integration_init] does when [readManifest] returns [null]. *)
Lemma run_integration_init_fresh (name : string)
    (template : option ProjectTemplate) (w : world) :
  snd (run readManifest w) = Returned None ->
  let t := match template with Some t => t | None => blank end in
  let manifest := apply_template t (base_manifest name) in
  run (integration_init name template) w
  = (write_file "vers.toml" (versToml manifest)
       (make_dir "scripts"
          (make_dir "tests"
             (write_file "vers-integration.yaml"
                (yaml_stringify (environment w) manifest) w))),
     Returned
       (InitReport "initialized" name (template_name t)
          (Js.keys (IntegrationManifest.services manifest))
          [ "Run 'vers build' to build the VM image";
            "Run '/vers-integration-up' to start services";
            "Run '/vers-integration-test' to run tests" ])).
Proof.
  intros Hnone t manifest. unfold integration_init.
  rewrite run_bind, (run_readManifest_none _ Hnone).
  rewrite run_bind, run_writeManifest. reflexivity.
Qed.

(** X3: in a directory whose manifest file is missing or unreadable,
    [integration_init name template] spawns no command and writes exactly
    two files and two directories, in this order: the manifest, [tests],
    [scripts], [vers.toml].  The manifest it writes bears the given name,
    declares no service twice, and every service a test suite depends on is
    one of its services; the reply lists these services in order. *)
Theorem integration_init_creates_project (name : string)
    (template : option ProjectTemplate) (w : world) :
  snd (run readManifest w) = Returned None ->
  exists manifest services steps,
    let done := run (integration_init name template) w in
    snd done
    = Returned (InitReport "initialized" name
                  (template_name
                     (match template with Some t => t | None => blank end))
                  services steps)
    /\ log (fst done)
       = (log w ++ [ Wrote "vers-integration.yaml"
                       (yaml_stringify (environment w) manifest);
                     MadeDir "tests"; MadeDir "scripts";
                     Wrote "vers.toml" (versToml manifest) ])%list
    /\ Js.get "vers-integration.yaml" (files (fst done))
       = Some (yaml_stringify (environment w) manifest)
    /\ Js.get "vers.toml" (files (fst done)) = Some (versToml manifest)
    /\ dirs (fst done) = (dirs w ++ ["tests"; "scripts"])%list
    /\ IntegrationManifest.name manifest = name
    /\ services = Js.keys (IntegrationManifest.services manifest)
    /\ NoDup services
    /\ (forall suiteName suite dep,
          In (suiteName, suite)
             (Js.spread_opt (IntegrationManifest.tests manifest)) ->
          In dep (match TestSuite.depends_on suite with
                  | Some d => d
                  | None => []
                  end) ->
          In dep services).
Proof.
  intro Hnone.
  set (t := match template with Some t => t | None => blank end).
  exists (apply_template t (base_manifest name)).
  exists (Js.keys (IntegrationManifest.services
                     (apply_template t (base_manifest name)))).
  eexists. cbv zeta.
  rewrite (run_integration_init_fresh name template w Hnone). fold t.
  cbn [fst snd]. split; [reflexivity|].
  split; [cbn [write_file make_dir log]; now rewrite <- !app_assoc|].
  split.
  { cbn [write_file make_dir files]. rewrite get_set_other by discriminate.
    apply get_set_same. }
  split; [cbn [write_file files]; apply get_set_same|].
  split; [cbn [write_file make_dir dirs]; now rewrite <- app_assoc|].
  split; [apply apply_template_name|].
  split; [reflexivity|].
  split.
  - destruct t; cbn; repeat constructor; cbn; intuition discriminate.
  - intros suiteName suite dep Hsuite Hdep.
    destruct t; cbn in Hsuite |- *; try contradiction;
      repeat (destruct Hsuite as [Hsuite|Hsuite];
              [inversion Hsuite; subst; clear Hsuite; cbn in Hdep;
               intuition idtac|]);
      try contradiction.
Qed.

Lemma integration_init_creates_project_witness :
  exists manifest services steps,
    snd (run (integration_init "shop" (Some ecommerce))
             (Fixture.empty_dir (Sample.quiet_env Fixture.bare [])))
    = Returned (InitReport "initialized" "shop" "ecommerce" services steps)
    /\ manifest = apply_template ecommerce (base_manifest "shop")
    /\ services = ["postgres"; "redis"; "elasticsearch"; "stripe"; "s3"].
Proof.
  destruct (@integration_init_creates_project "shop" (Some ecommerce)
              (Fixture.empty_dir (Sample.quiet_env Fixture.bare []))
              eq_refl)
    as [manifest [services [steps H]]].
  exists (apply_template ecommerce (base_manifest "shop")), services, steps.
  cbv zeta in H. destruct H as [Hreply [_ [_ [_ [_ [_ [Hsvc _]]]]]]].
  split; [exact Hreply|]. split; [reflexivity|].
  injection Hreply as Hs _. rewrite <- Hs. reflexivity.
Defined.

(** X4: [integration_init] is idempotent on a project.  After a first call
    in a directory without a readable manifest, with a YAML library that
    parses back what it printed, a second call, whatever its arguments,
    answers that the project is already initialized under the first name,
    writes nothing, creates no directory and spawns nothing. *)
Theorem integration_init_twice (name name' : string)
    (template template' : option ProjectTemplate) (w : world) :
  snd (run readManifest w) = Returned None ->
  round_trips (environment w)
    (apply_template (match template with Some t => t | None => blank end)
                    (base_manifest name)) ->
  let first := run (integration_init name template) w in
  let second := run (integration_init name' template') (fst first) in
  snd second = Returned (InitText ("Project already initialized: " ++ name))
  /\ files (fst second) = files (fst first)
  /\ dirs (fst second) = dirs (fst first)
  /\ log (fst second) = log (fst first).
Proof.
  intros Hnone Hround first second. subst first second.
  rewrite (run_integration_init_fresh name template w Hnone). cbn [fst].
  set (manifest := apply_template _ (base_manifest name)) in *.
  set (w1 := write_file "vers.toml" _ _).
  assert (Hloads : loads w1 manifest).
  { exists (yaml_stringify (environment w) manifest). split; [|exact Hround].
    subst w1. cbn [write_file make_dir files].
    rewrite get_set_other by discriminate. apply get_set_same. }
  unfold integration_init. rewrite run_bind, (run_readManifest_loads Hloads).
  cbn [run fst snd bind_manifest files dirs log].
  subst manifest. now rewrite apply_template_name.
Qed.

Lemma integration_init_twice_witness :
  snd (run (integration_init "other" (Some microservices))
         (fst (run (integration_init "shop" None)
                   (Fixture.empty_dir
                      (Fixture.codec_env [base_manifest "shop"]
                                         Fixture.always_ok)))))
  = Returned (InitText "Project already initialized: shop").
Proof.
  exact (proj1 (@integration_init_twice "shop" "other" None
                  (Some microservices)
                  (Fixture.empty_dir
                     (Fixture.codec_env [base_manifest "shop"]
                                        Fixture.always_ok))
                  eq_refl eq_refl)).
Defined.

(* ------------------------------------------------------------------------ *)
(** ** Adding and removing services *)








(** X7: adding a service under an alias that is not in use and removing
    that alias again gives back the manifest as it was loaded: the object
    the handlers hold and what the manifest file holds are those of the
    original manifest.  The YAML library is assumed to parse back what it
    printed of the manifest with the service added. *)
Theorem add_then_remove_restores_manifest (service : string)
    (alias : option string) (config : option (Js.obj Js.value))
    (w : world) (m : IntegrationManifest.t) :
  loads w m ->
  let serviceAlias := Js.or_else alias (Js.before_at service) in
  let added := fst (run (integration_add_service service alias config) w) in
  Js.get serviceAlias (IntegrationManifest.services m) = None ->
  (forall m1, manifest_obj added = Some m1 ->
              round_trips (environment w) m1) ->
  let done := run (integration_remove_service serviceAlias) added in
  snd done = Returned ("Service '" ++ serviceAlias ++ "' removed.")
  /\ manifest_obj (fst done) = Some m
  /\ files (fst done)
     = Js.set "vers-integration.yaml" (yaml_stringify (environment w) m)
              (files w).
Proof.
  intros Hloads serviceAlias added Hnew Hround done. subst done.
  assert (Hadded : exists cfg,
    added = write_file "vers-integration.yaml"
              (yaml_stringify (environment w) (with_service serviceAlias cfg m))
              (bind_manifest (with_service serviceAlias cfg m)
                 (bind_manifest m w))).
  { subst added. unfold integration_add_service.
    rewrite run_bind, (run_readManifest_loads Hloads). cbv zeta.
    fold serviceAlias. cbn [run]. rewrite run_bind, run_writeManifest.
    cbn [run fst]. eexists. reflexivity. }
  destruct Hadded as [cfg Hadded]. clearbody added. subst added.
  set (m1 := with_service serviceAlias cfg m) in *.
  specialize (Hround m1 eq_refl).
  set (w1 := write_file _ _ _).
  assert (Hloads1 : loads w1 m1).
  { exists (yaml_stringify (environment w) m1). split; [|exact Hround].
    subst w1. cbn [write_file files]. apply get_set_same. }
  unfold integration_remove_service.
  rewrite run_bind, (run_readManifest_loads Hloads1).
  assert (Hget : Js.get serviceAlias (IntegrationManifest.services m1)
                 = Some cfg).
  { subst m1. destruct m; cbn. apply get_set_same. }
  rewrite Hget. cbn [run]. rewrite run_bind, run_writeManifest.
  assert (Hback : without_service serviceAlias m1 = m).
  { subst m1. unfold without_service, with_service. destruct m; cbn in *.
    now rewrite delete_set_new. }
  rewrite Hback.
  cbn [run fst snd write_file bind_manifest manifest_obj files environment].
  subst w1. cbn [write_file bind_manifest files environment].
  split; [reflexivity|]. split; [reflexivity|].
  apply set_set_same.
Qed.

Lemma add_then_remove_restores_manifest_witness :
  snd (run (integration_remove_service "redis")
         (fst (run (integration_add_service "redis@7" None None)
                   (Fixture.holding Stack.yaml Fixture.bare))))
  = Returned "Service 'redis' removed."
  /\ manifest_obj
       (fst (run (integration_remove_service "redis")
               (fst (run (integration_add_service "redis@7" None None)
                         (Fixture.holding Stack.yaml Fixture.bare)))))
     = Some Fixture.bare.
Proof.
  assert (Hround : forall m1,
            manifest_obj
              (fst (run (integration_add_service "redis@7" None None)
                        (Fixture.holding Stack.yaml Fixture.bare)))
            = Some m1 ->
            round_trips Stack.yaml m1).
  { intros m1 H. injection H as <-. reflexivity. }
  destruct (@add_then_remove_restores_manifest "redis@7" None None
              (Fixture.holding Stack.yaml Fixture.bare) Fixture.bare
              (ex_intro _ "services: " (conj eq_refl eq_refl))
              eq_refl Hround)
    as [Hreply [Hobj _]].
  split; [exact Hreply | exact Hobj].
Defined.

(* ------------------------------------------------------------------------ *)
(** ** Stopping and starting services *)

Lemma run_stop_services (reversed : list string) :
  forall (results : list (string * string)) (w : world),
  exists w' details evs,
    run (stop_services reversed results) w
    = (w', Returned (results ++ details)%list)
    /\ log w' = (log w ++ evs)%list
    /\ issued evs = map stop_cmd reversed
    /\ map fst details = reversed
    /\ files w' = files w.
Proof.
  induction reversed as [|svc rest IH]; intros results w.
  - exists w, [], []. cbn [stop_services run map issued].
    now rewrite !app_nil_r.
  - cbn [stop_services]. rewrite run_bind, run_execVers.
    match goal with
    | |- context [run (stop_services rest ?r) ?w1] =>
        destruct (IH r w1) as [w' [details [evs [Hrun [Hlog [Hiss [Hd Hf]]]]]]]
    end.
    exists w'. eexists (_ :: details). eexists.
    split; [rewrite Hrun, <- app_assoc; reflexivity|].
    split; [rewrite Hlog, log_exec_world, <- app_assoc; reflexivity|].
    split; [cbn [app issued map]; now rewrite Hiss|].
    split; [cbn [map fst]; now rewrite Hd | exact Hf].
Qed.

(** X8: on a project whose manifest loads, [integration_down] spawns one
    [vers service stop] per requested service (all the services of the
    manifest when none is named), in the reverse of the requested order,
    and nothing else.  Whatever the commands answer, every service is
    reported as stopped, and the list [stopped] is in the reversed order
    too, like the details.  No file is written. *)
Theorem integration_down_stops_in_reverse (services : option (list string))
    (w : world) (m : IntegrationManifest.t) :
  loads w m ->
  let done := run (integration_down services) w in
  exists r evs,
    snd done = Returned (DownResult r)
    /\ log (fst done) = (log w ++ evs)%list
    /\ issued evs = map stop_cmd (rev (services_or_all services m))
    /\ down_stopped r = rev (services_or_all services m)
    /\ map fst (down_details r) = rev (services_or_all services m)
    /\ files (fst done) = files w.
Proof.
  intros Hloads done. subst done. unfold integration_down.
  rewrite run_bind, (run_readManifest_loads Hloads). cbv zeta.
  fold (services_or_all services m). rewrite run_bind.
  destruct (run_stop_services (rev (services_or_all services m)) []
              (bind_manifest m w))
    as [w' [details [evs [Hrun [Hlog [Hiss [Hd Hf]]]]]]].
  rewrite Hrun. cbn [run fst snd app].
  exists (mkDownReport (rev (services_or_all services m)) details), evs.
  repeat split; assumption.
Qed.

Lemma integration_down_stops_in_reverse_witness :
  exists r evs,
    snd (run (integration_down None)
             (Sample.project (Sample.quiet_env Fixture.ordered [])))
    = Returned (DownResult r)
    /\ issued evs = [ "vers service stop a"; "vers service stop b";
                      "vers service stop c" ]
    /\ down_stopped r = ["a"; "b"; "c"].
Proof.
  destruct (@integration_down_stops_in_reverse None
              (Sample.project (Sample.quiet_env Fixture.ordered []))
              Fixture.ordered
              (ex_intro _ "name: demo" (conj eq_refl eq_refl)))
    as [r [evs [Hreply [_ [Hiss [Hstopped _]]]]]].
  exists r, evs. split; [exact Hreply|]. split; [exact Hiss | exact Hstopped].
Defined.

Lemma In_mem (xs : list string) (x : string) :
  In x xs -> Js.mem xs x = true.
Proof.
  intro H. unfold Js.mem. apply existsb_exists. exists x.
  split; [exact H | apply String.eqb_refl].
Qed.

Lemma no_unmet_deps (started deps : list string) :
  incl deps started ->
  filter (fun d => negb (Js.mem started d)) deps = [].
Proof.
  induction deps as [|d deps IH]; intro Hincl; cbn; [reflexivity|].
  rewrite (In_mem started d) by (apply Hincl; now left). cbn.
  apply IH. intros x Hx. apply Hincl. now right.
Qed.

Lemma run_start_services_in_order (manifest : IntegrationManifest.t)
    (servicesToStart : list string) :
  forall (started failed : list string) (w : world),
    starts_succeed (environment w) ->
    in_dependency_order manifest started servicesToStart ->
    exists w' evs,
      run (start_services manifest servicesToStart started failed) w
      = (w', Returned ((started ++ servicesToStart)%list, failed))
      /\ log w' = (log w ++ evs)%list
      /\ issued evs = map start_cmd servicesToStart.
Proof.
  induction servicesToStart as [|svc rest IH];
    intros started failed w Hok Horder.
  - exists w, []. cbn [start_services run map issued].
    now rewrite !app_nil_r.
  - destruct Horder as [[svcConfig [Hget Hdeps]] Hrest].
    cbn [start_services]. rewrite Hget. cbv zeta.
    fold (deps_of svcConfig). rewrite (no_unmet_deps Hdeps).
    cbn [start_deps]. rewrite run_bind. cbn [run].
    rewrite run_bind, run_execVers.
    change ("vers " ++ "service start " ++ svc) with (start_cmd svc).
    unfold exec_answer at 1. rewrite (Hok _ svc).
    destruct (IH (started ++ [svc])%list failed (exec_world (start_cmd svc) w)
                 Hok Hrest)
      as [w' [evs [Hrun [Hlog Hiss]]]].
    exists w'. eexists. split; [rewrite Hrun, <- app_assoc; reflexivity|].
    split; [rewrite Hlog, log_exec_world, <- app_assoc; reflexivity|].
    cbn [app issued map]. now rewrite Hiss.
Qed.


Lemma run_wait_healthy (started : list string) :
  forall (results : list UpDetail) (w : world),
  exists w' details evs,
    run (wait_healthy started results) w
    = (w', Returned (results ++ details)%list)
    /\ log w' = (log w ++ evs)%list
    /\ issued evs = map health_cmd started
    /\ forall tag, ~ In (CheckpointCreated tag) details.
Proof.
  induction started as [|svc rest IH]; intros results w.
  - exists w, [], []. cbn [wait_healthy run map issued].
    rewrite !app_nil_r. repeat split. intros tag [].
  - cbn [wait_healthy]. rewrite run_bind, run_execVers.
    match goal with
    | |- context [run (wait_healthy rest ?r) ?w1] =>
        destruct (IH r w1) as [w' [details [evs [Hrun [Hlog [Hiss Hno]]]]]]
    end.
    exists w'. eexists (_ :: details). eexists.
    split; [rewrite Hrun, <- app_assoc; reflexivity|].
    split; [rewrite Hlog, log_exec_world, <- app_assoc; reflexivity|].
    split; [cbn [app issued map]; rewrite Hiss; reflexivity|].
    intros tag [H|H]; [discriminate | exact (Hno tag H)].
Qed.

Lemma log_built (build : option bool) (m : IntegrationManifest.t) (w : world) :
  log (built build m w)
  = (log w ++ (if Js.flag build
               then [ Issued "vers build";
                      Settled "vers build"
                        (exec_answer "vers build" (bind_manifest m w)) ]
               else []))%list.
Proof.
  unfold built. destruct (Js.flag build).
  - now rewrite log_exec_world.
  - cbn. now rewrite app_nil_r.
Qed.

(** What [integration_up] does once its loop over the services has left
    [started] and [failed]. *)
Lemma integration_up_after_starting (services : option (list string))
    (build : option bool) (checkpoint : option string) (w w2 : world)
    (m : IntegrationManifest.t) (started failed : list string) :
  loads w m ->
  run (start_services m (services_or_all services m) [] []) (built build m w)
  = (w2, Returned (started, failed)) ->
  let committed :=
    Js.truthy_opt checkpoint && (List.length failed =? 0)%nat in
  exists details evs,
    snd (run (integration_up services build checkpoint) w)
    = Returned (UpResult
                  (mkUpReport
                     (if (List.length failed =? 0)%nat
                      then "success" else "partial")
                     started failed details))
    /\ log (fst (run (integration_up services build checkpoint) w))
       = (log w2 ++ evs)%list
    /\ issued evs
       = (map health_cmd started
          ++ (if committed then [commit_cmd (Js.or_else checkpoint "")]
              else []))%list
    /\ (forall tag, In (CheckpointCreated tag) details -> committed = true).
Proof.
  intros Hloads Hstart committed. unfold integration_up.
  rewrite run_bind, (run_readManifest_loads Hloads). rewrite run_bind.
  fold (services_or_all services m).
  assert (Hbuild : exists results,
    run (if Js.flag build
         then out <- execVers "build" ;;
              Ret [BuildStep (Js.or_str (stdout out) (stderr out))]
         else Ret []) (bind_manifest m w)
    = (built build m w, Returned results)
    /\ forall tag, ~ In (CheckpointCreated tag) results).
  { unfold built. destruct (Js.flag build).
    - rewrite run_bind, run_execVers. cbn [run]. eexists. split; [reflexivity|].
      intros tag [H|[]]. discriminate.
    - exists []. split; [reflexivity|]. intros tag []. }
  destruct Hbuild as [results [Hbuild Hnone]]. rewrite Hbuild.
  rewrite run_bind, Hstart. rewrite run_bind.
  destruct (run_wait_healthy started results w2)
    as [w3 [details [evs [Hrun [Hlog [Hiss Hno]]]]]].
  rewrite Hrun. rewrite run_bind. fold committed.
  destruct committed eqn:Hc.
  - rewrite run_bind, run_execVers. cbn [run fst snd].
    eexists. eexists. split; [reflexivity|].
    split; [rewrite log_exec_world, Hlog, <- app_assoc; reflexivity|].
    split; [rewrite issued_app, Hiss; reflexivity|].
    reflexivity.
  - cbn [run fst snd]. eexists. exists evs. split; [reflexivity|].
    split; [exact Hlog|]. split; [now rewrite app_nil_r|].
    intros tag Hin. apply in_app_or in Hin as [Hin|Hin].
    + now apply Hnone in Hin.
    + now apply Hno in Hin.
Qed.

Lemma environment_built (build : option bool) (m : IntegrationManifest.t)
    (w : world) :
  environment (built build m w) = environment w.
Proof. unfold built. now destruct (Js.flag build). Qed.

Lemma issued_build (build : option bool) (r : ExecResult) :
  issued (if Js.flag build
          then [Issued "vers build"; Settled "vers build" r] else [])
  = if Js.flag build then ["vers build"] else [].
Proof. now destruct (Js.flag build). Qed.

(** X9: when the requested services are all defined and listed with every
    dependency before its dependents, and every [vers service start]
    succeeds, [integration_up] starts each requested service exactly once,
    in the requested order, then waits for the health of each in the same
    order, and reports success with all of them started and none failed.
    The commands spawned are, in order: the build if asked for, the starts,
    the health checks, the commit of the checkpoint if one is asked for. *)
Theorem integration_up_starts_each_service_once
    (services : option (list string)) (build : option bool)
    (checkpoint : option string) (w : world) (m : IntegrationManifest.t) :
  loads w m ->
  starts_succeed (environment w) ->
  in_dependency_order m [] (services_or_all services m) ->
  let done := run (integration_up services build checkpoint) w in
  exists details evs,
    snd done
    = Returned (UpResult
                  (mkUpReport "success" (services_or_all services m) []
                              details))
    /\ log (fst done) = (log w ++ evs)%list
    /\ issued evs
       = ((if Js.flag build then ["vers build"] else [])
          ++ map start_cmd (services_or_all services m)
          ++ map health_cmd (services_or_all services m)
          ++ (if Js.truthy_opt checkpoint
              then [commit_cmd (Js.or_else checkpoint "")] else []))%list.
Proof.
  intros Hloads Hok Horder done. subst done.
  rewrite <- (environment_built build m w) in Hok.
  destruct (run_start_services_in_order m (services_or_all services m)
              [] [] (built build m w) Hok Horder)
    as [w2 [evs1 [Hrun [Hlog1 Hiss1]]]].
  cbn [app] in Hrun.
  destruct (integration_up_after_starting services build checkpoint Hloads Hrun)
    as [details [evs2 [Hreply [Hlog2 [Hiss2 _]]]]].
  cbn [List.length Nat.eqb] in Hreply, Hiss2.
  rewrite andb_true_r in Hiss2.
  exists details. eexists. split; [exact Hreply|].
  split; [rewrite Hlog2, Hlog1, log_built, <- !app_assoc; reflexivity|].
  rewrite !issued_app, issued_build, Hiss1, Hiss2. reflexivity.
Qed.

Lemma integration_up_starts_each_service_once_witness :
  exists details evs,
    snd (run (integration_up None None (Some "ready"))
             (Sample.project (Sample.quiet_env Fixture.ordered [])))
    = Returned (UpResult (mkUpReport "success" ["c"; "b"; "a"] [] details))
    /\ issued evs
       = [ "vers service start c"; "vers service start b";
           "vers service start a"; "vers service health c --wait";
           "vers service health b --wait"; "vers service health a --wait";
           commit_cmd "ready" ].
Proof.
  assert (Horder : in_dependency_order Fixture.ordered []
                     (services_or_all None Fixture.ordered)).
  { cbn. repeat split.
    - eexists. split; [reflexivity|]. intros x [].
    - eexists. split; [reflexivity|]. intros x [<-|[]]. now left.
    - eexists. split; [reflexivity|]. intros x [<-|[]]. right. now left. }
  destruct (@integration_up_starts_each_service_once None None (Some "ready")
              (Sample.project (Sample.quiet_env Fixture.ordered []))
              Fixture.ordered
              (ex_intro _ "name: demo" (conj eq_refl eq_refl))
              (fun _ _ => eq_refl) Horder)
    as [details [evs [Hreply [_ Hiss]]]].
  exists details, evs. split; [exact Hreply | exact Hiss].
Defined.







(* ------------------------------------------------------------------------ *)
(** ** Test runs *)

Lemma ensures_bind_with {A B : Type} (Q : A -> Prop) (R : B -> Prop)
    (t : task B) (f : B -> task A) :
  ensures R t -> (forall b, R b -> ensures Q (f b)) -> ensures Q (bind t f).
Proof. intros Ht Hf. induction t; simpl in *; auto. Qed.

Lemma ensures_run_command (suiteName branchName cmd : string) :
  ensures decided (run_command suiteName branchName cmd).
Proof.
  unfold run_command, now, execAsync, decided. cbn.
  intros n [out|message]; cbn; intro n'; [left | right]; reflexivity.
Qed.

Lemma ensures_run_scenario (prefix suiteName : string)
    (suiteConfig : TestSuite.t) (branch : TestBranch.t) :
  ensures decided (run_scenario prefix suiteName suiteConfig branch).
Proof.
  unfold run_scenario.
  apply ensures_bind; intros _. apply ensures_bind; intros _.
  apply ensures_bind; intros _.
  apply ensures_bind_with with (R := decided);
    [apply ensures_run_command|].
  intros result Hresult. apply ensures_bind; intros _. exact Hresult.
Qed.

Lemma ensures_run_scenarios (prefix suiteName : string)
    (suiteConfig : TestSuite.t) (branches : list TestBranch.t) :
  forall suiteResults,
    Forall decided suiteResults ->
    ensures (Forall decided)
            (run_scenarios prefix suiteName suiteConfig branches suiteResults).
Proof.
  induction branches as [|branch rest IH]; intros suiteResults Hres;
    cbn [run_scenarios]; [exact Hres|].
  apply ensures_bind_with with (R := decided);
    [apply ensures_run_scenario|].
  intros result Hresult. apply IH, Forall_app. split; [exact Hres|].
  now constructor.
Qed.

Lemma ensures_runTest (prefix suiteName : string)
    (suiteConfig : option TestSuite.t) :
  ensures (Forall decided) (runTest prefix suiteName suiteConfig).
Proof.
  unfold runTest. destruct suiteConfig as [suiteConfig|]; [|exact I].
  assert (Hsingle :
    ensures (Forall decided)
      (execVers ("branch --alias " ++ prefix ++ "-" ++ suiteName) ;;
       execVers ("checkout " ++ prefix ++ "-" ++ suiteName) ;;
       result <- run_command suiteName (prefix ++ "-" ++ suiteName)
                   (TestSuite.command suiteConfig) ;;
       Ret [result])).
  { apply ensures_bind; intros _. apply ensures_bind; intros _.
    apply ensures_bind_with with (R := decided);
      [apply ensures_run_command|].
    intros result Hresult. cbn. now constructor. }
  destruct (TestSuite.branches suiteConfig) as [[|b bs]|]; try exact Hsingle.
  apply ensures_run_scenarios. constructor.
Qed.

Lemma ensures_run_suites (prefix : string)
    (suitesToRun : list (string * option TestSuite.t)) :
  forall results,
    Forall decided results ->
    ensures (Forall decided) (run_suites prefix suitesToRun results).
Proof.
  induction suitesToRun as [|[name config] rest IH]; intros results Hres;
    cbn [run_suites]; [exact Hres|].
  apply ensures_bind_with with (R := Forall decided);
    [apply ensures_runTest|].
  intros suiteResults Hsuite. apply IH, Forall_app. now split.
Qed.

Lemma decided_counts (results : list TestResult.t) :
  Forall decided results ->
  List.length results
  = (count_status Status.passed results
     + count_status Status.failed results)%nat.
Proof.
  unfold count_status.
  induction 1 as [|r results [Hr|Hr] _ IH]; cbn; [reflexivity| |];
    rewrite Hr; cbn; rewrite IH; lia.
Qed.

(** X12: the summary of a test run adds up.  Whenever [integration_test]
    answers with a report, sequentially or in parallel and whatever the
    commands did, every result is [passed] or [failed] (none is [skipped]
    or [error]), [total] is the number of results, and
    [total = passed + failed]. *)
Theorem integration_test_summary_adds_up (suite : option string)
    (parallel : option bool) (branch_prefix : option string) (w : world)
    (summary : TestSummary) (results : list TestResult.t) :
  snd (integration_test suite parallel branch_prefix w)
  = Returned (TestReport summary results) ->
  Forall decided results
  /\ total summary = List.length results
  /\ total summary = (sum_passed summary + sum_failed summary)%nat.
Proof.
  unfold integration_test, and_then at 1.
  destruct (await readManifest w) as [w1 [[m|]|e]]; try discriminate.
  destruct (IntegrationManifest.tests m) as [tests|]; try discriminate.
  unfold and_then at 1.
  match goal with
  | |- context [await ?t w1] => destruct (await t w1) as [w2 [out|e]]
  end; [|discriminate].
  set (suitesToRun := if Js.truthy_opt suite then _ else _).
  set (prefix := Js.or_else branch_prefix "test").
  assert (Hresults : forall w3 rs,
    (if Js.flag parallel
     then and_then
            (promise_all
               (map (fun nc => runTest prefix (fst nc) (snd nc)) suitesToRun))
            (fun allResults => reply (List.concat allResults))
     else await (run_suites prefix suitesToRun [])) w2
    = (w3, Returned rs) ->
    Forall decided rs).
  { intros w3 rs Hrun. destruct (Js.flag parallel).
    - unfold and_then in Hrun.
      destruct (promise_all _ w2) as [w4 [l|e]] eqn:Hall; [|discriminate].
      injection Hrun as _ <-.
      pose proof (@promise_all_ensures _ _
                    (fun _ rs => Forall decided rs)
                    (fun nc => runTest prefix (fst nc) (snd nc))
                    suitesToRun w2 w4 l
                    (fun nc => ensures_runTest prefix (fst nc) (snd nc))
                    Hall) as Hl.
      clear Hall. induction Hl; cbn; [constructor|].
      apply Forall_app. now split.
    - unfold await in Hrun.
      eapply run_ensures; [|exact Hrun].
      apply ensures_run_suites. constructor. }
  unfold and_then at 1.
  match goal with
  | |- context [match ?h w2 with _ => _ end] =>
      destruct (h w2) as [w3 [rs|e]] eqn:Hrun
  end; [|discriminate].
  unfold reply. cbn [snd]. intro H. injection H as <- <-.
  pose proof (Hresults w3 rs eq_refl) as Hdec.
  cbn [total sum_passed sum_failed].
  split; [exact Hdec|]. split; [reflexivity | now apply decided_counts].
Qed.

Lemma integration_test_summary_adds_up_witness :
  exists summary results,
    snd (integration_test None (Some true) None
           (Sample.project (Sample.quiet_env Scenarios.shop [1; 0; 0; 1]%nat)))
    = Returned (TestReport summary results)
    /\ total summary = 3%nat
    /\ total summary = (sum_passed summary + sum_failed summary)%nat.
Proof.
  eexists. eexists. split; [vm_compute; reflexivity|].
  split; [reflexivity|].
  refine (proj2 (proj2 (@integration_test_summary_adds_up
                          None (Some true) None
                          (Sample.project
                             (Sample.quiet_env Scenarios.shop
                                               [1; 0; 0; 1]%nat))
                          _ _ _))).
  vm_compute. reflexivity.
Defined.



Lemma get_absent {V : Type} (k : string) (o : Js.obj V) :
  ~ In k (Js.keys o) -> Js.get k o = None.
Proof.
  unfold Js.keys. induction o as [|[k' v'] o IH]; cbn; intro Hnot;
    [reflexivity|].
  destruct (String.eqb_spec k k') as [->|Hne]; [tauto|].
  apply IH. tauto.
Qed.

(** [{...a, ...b}]: a key of [b] has the value [b] gives it, any other key
    the value [a] gives it. *)
Lemma get_spread {V : Type} (k : string) (b : Js.obj V) :
  NoDup (Js.keys b) ->
  forall a,
    Js.get k (Js.spread a b)
    = match Js.get k b with
      | Some v => Some v
      | None => Js.get k a
      end.
Proof.
  unfold Js.spread, Js.keys.
  induction b as [|[k0 v0] b IH]; intros Hnodup a; cbn; [reflexivity|].
  inversion Hnodup as [|? ? Hnotin Hrest]; subst.
  rewrite (IH Hrest).
  destruct (String.eqb_spec k k0) as [->|Hne].
  - rewrite (get_absent k0 b Hnotin). apply get_set_same.
  - now rewrite get_set_other.
Qed.

(** X14: the environment of a scenario.  A scenario whose before-hook is
    absent creates its branch, checks it out and then spawns the test
    command prefixed with the assignments of an environment in which every
    variable the scenario sets has the scenario's value and every other
    variable the value the suite gives it: the scenario's overrides win. *)
Theorem run_scenario_branch_env_wins (prefix suiteName : string)
    (suiteConfig : TestSuite.t) (branch : TestBranch.t) (w : world) :
  Js.truthy_opt (TestBranch.before branch) = false ->
  NoDup (Js.keys (Js.spread_opt (TestBranch.env branch))) ->
  exists (vars : Js.obj string) evs rest,
    log (fst (run (run_scenario prefix suiteName suiteConfig branch) w))
    = (log w ++ evs)%list
    /\ issued evs
       = ([ ("vers branch --alias "
               ++ branchAlias prefix suiteName (TestBranch.name branch))%string;
            ("vers checkout "
               ++ branchAlias prefix suiteName (TestBranch.name branch))%string;
            (envStr vars ++ " " ++ TestSuite.command suiteConfig)%string ]
          ++ rest)%list
    /\ forall variable,
         Js.get variable vars
         = match Js.get variable (Js.spread_opt (TestBranch.env branch)) with
           | Some v => Some v
           | None =>
               Js.get variable (Js.spread_opt (TestSuite.env suiteConfig))
           end.
Proof.
  intros Hbefore Hnodup.
  exists (Js.spread (Js.spread_opt (TestSuite.env suiteConfig))
                    (Js.spread_opt (TestBranch.env branch))).
  unfold run_scenario.
  rewrite run_bind, run_execVers, run_bind, run_execVers.
  rewrite run_bind, (run_hook_absent _ _ Hbefore), run_bind.
  match goal with
  | |- context [run (run_command ?s ?b ?c) ?w1] =>
      destruct (run_run_command s b c w1) as [result [Hrun _]]
  end.
  rewrite Hrun.
  match goal with
  | |- context [run ?t ?w1] => destruct (run_extends t w1) as [more Hmore]
  end.
  eexists. exists (issued more).
  split; [rewrite Hmore, !log_exec_world, <- !app_assoc; reflexivity|].
  split; [rewrite !issued_app; reflexivity|].
  intro variable. now apply get_spread.
Qed.

Lemma run_scenario_branch_env_wins_witness :
  exists (vars : Js.obj string) evs rest,
    log (fst (run (run_scenario "test" "checkout"
                     (TestSuite.mk "npm test" None None None
                        (Some [("CARD", "0000"); ("MODE", "ci")]))
                     (Scenarios.scenario "card" (Some [("CARD", "4242")])
                                         None))
                  (Sample.project (Sample.quiet_env Scenarios.shop []))))
    = evs
    /\ issued evs
       = ([ "vers branch --alias test-checkout-card";
            "vers checkout test-checkout-card";
            (envStr vars ++ " npm test")%string ] ++ rest)%list
    /\ Js.get "CARD" vars = Some "4242"
    /\ Js.get "MODE" vars = Some "ci".
Proof.
  destruct (@run_scenario_branch_env_wins "test" "checkout"
              (TestSuite.mk "npm test" None None None
                 (Some [("CARD", "0000"); ("MODE", "ci")]))
              (Scenarios.scenario "card" (Some [("CARD", "4242")]) None)
              (Sample.project (Sample.quiet_env Scenarios.shop []))
              eq_refl
              (NoDup_cons "CARD" (fun H : In "CARD" [] => H) (NoDup_nil _)))
    as [vars [evs [rest [Hlog [Hiss Hget]]]]].
  exists vars, evs, rest. split; [exact Hlog|]. split; [exact Hiss|].
  split; [exact (Hget "CARD") | exact (Hget "MODE")].
Defined.

(* ------------------------------------------------------------------------ *)
(** ** Matrix runs *)

Lemma combinations_of_kept (matrix : Js.obj (list string))
    (filter : option (Js.obj string)) :
  NoDup (Js.keys matrix) ->
  combinations_of matrix filter = cartesian (kept_dims filter matrix).
Proof.
  intro Hkeys. unfold combinations_of, Js.keys.
  destruct (@generate_from matrix filter matrix) with
    (p := @nil (string * string)) (stale := @nil (string * string))
    (acc := @nil combination) as [stale' [_ Hgen]].
  - intros d Hd. unfold versions_of.
    now rewrite (get_of_unique_key matrix d Hkeys Hd).
  - exact Hkeys.
  - constructor.
  - simpl in Hgen. rewrite Hgen. simpl. now rewrite map_id.
Qed.

Lemma cartesian_length (dims : list (string * list string)) :
  List.length (cartesian dims)
  = fold_right (fun d n => (List.length (snd d) * n)%nat) 1%nat dims.
Proof.
  induction dims as [|[key versions] dims IH]; [reflexivity|].
  cbn [cartesian fold_right snd]. rewrite <- IH.
  generalize (cartesian dims) as rest. intro rest. clear IH.
  induction versions as [|v versions IHv]; [reflexivity|].
  simpl. rewrite length_app, length_map. f_equal. exact IHv.
Qed.

Lemma kept_count_cartesian (filter : option (Js.obj string))
    (matrix : Js.obj (list string)) :
  List.length (cartesian (kept_dims filter matrix)) = kept_count filter matrix.
Proof.
  rewrite cartesian_length. unfold kept_count, kept_dims.
  induction matrix as [|d matrix IH]; [reflexivity|].
  cbn [map fold_right fst snd]. now rewrite IH.
Qed.

Lemma kept_count_zero (filter : option (Js.obj string))
    (matrix : Js.obj (list string)) :
  (exists d, In d matrix /\ kept filter (fst d) (snd d) = []) ->
  kept_count filter matrix = 0%nat.
Proof.
  intros [d [Hin Hnone]]. unfold kept_count.
  induction matrix as [|d' matrix IH]; [contradiction|].
  cbn [fold_right]. destruct Hin as [->|Hin].
  - now rewrite Hnone.
  - rewrite (IH Hin). lia.
Qed.

Lemma settle_in_order_nil {A : Type} (order : list nat) (w : world) :
  settle_in_order order (@nil (task A)) w = (w, []).
Proof.
  induction order as [|i order IH]; [reflexivity|].
  cbn [settle_in_order first_rejection]. now destruct i.
Qed.

(** X15: the number of combinations.  For a manifest whose matrix names no
    dimension twice, the [total_combinations] of every report of
    [integration_matrix] is the product, over the dimensions, of the number
    of values the filter does not exclude (1 for a matrix without
    dimensions).  When some dimension keeps no value at all, the run,
    sequential or parallel, spawns nothing and reports no combination. *)
Theorem integration_matrix_total_is_product (filter : option (Js.obj string))
    (parallel continue_on_failure : option bool) (w : world)
    (m : IntegrationManifest.t) (matrix : Js.obj (list string)) :
  loads w m ->
  IntegrationManifest.matrix m = Some matrix ->
  NoDup (Js.keys matrix) ->
  let done := integration_matrix filter parallel continue_on_failure w in
  List.length (combinations_of matrix filter) = kept_count filter matrix
  /\ (forall r, snd done = Returned (MatrixDone r) ->
        total_combinations r = kept_count filter matrix)
  /\ ((exists d, In d matrix /\ kept filter (fst d) (snd d) = []) ->
      snd done = Returned (MatrixDone (mkMatrixReport matrix 0 0 0 []))
      /\ log (fst done) = log w).
Proof.
  intros [content [Hfile Hparse]] Hmatrix Hkeys done.
  assert (Hlen : List.length (combinations_of matrix filter)
                 = kept_count filter matrix).
  { rewrite (@combinations_of_kept matrix filter Hkeys). apply kept_count_cartesian. }
  split; [exact Hlen|].
  subst done.
  rewrite (integration_matrix_loaded filter parallel continue_on_failure
             w Hfile Hparse Hmatrix).
  split.
  - intro r. unfold and_then.
    match goal with
    | |- context [match ?h ?w1 with _ => _ end] =>
        destruct (h w1) as [w2 [results|e]]
    end; [|discriminate].
    unfold reply. cbn [snd]. intro H. injection H as <-.
    exact Hlen.
  - intro Hempty. pose proof (kept_count_zero filter matrix Hempty) as Hzero.
    rewrite Hzero in Hlen. apply length_zero_iff_nil in Hlen.
    rewrite Hlen. cbn [map run_combinations List.length].
    destruct (Js.flag parallel).
    + unfold and_then, promise_all. cbn [start_all].
      rewrite settle_in_order_nil. cbn. split; reflexivity.
    + cbn. split; reflexivity.
Qed.

Lemma integration_matrix_total_is_product_witness :
  List.length (combinations_of Matrix.example (Some [("redis", "7")]))
  = kept_count (Some [("redis", "7")]) Matrix.example
  /\ kept_count (Some [("redis", "7")]) Matrix.example = 3%nat.
Proof.
  split; [|reflexivity].
  exact (proj1 (@integration_matrix_total_is_product
                  (Some [("redis", "7")]) None None
                  (Sample.project
                     (Sample.quiet_env
                        (Sample.manifest_of [] None (Some Matrix.example)) []))
                  (Sample.manifest_of [] None (Some Matrix.example))
                  Matrix.example
                  (ex_intro _ "name: demo" (conj eq_refl eq_refl))
                  eq_refl
                  (NoDup_cons "postgres"
                     (fun H : In "postgres" ["redis"] =>
                        match H with
                        | or_introl E =>
                            eq_ind "redis"
                              (fun s => if s =? "redis" then True else False)
                              I "postgres" E
                        | or_intror F => F
                        end)
                     (NoDup_cons "redis" (fun H : In "redis" [] => H)
                                 (NoDup_nil _))))).
Defined.

Lemma cartesian_kept_shape (filter : option (Js.obj string))
    (matrix : Js.obj (list string)) :
  forall combo,
    In combo (cartesian (kept_dims filter matrix)) ->
    Forall2 (fun d kv =>
               fst kv = fst d
               /\ In (snd kv) (snd d)
               /\ filtered_out filter (fst d) (snd kv) = false)
            matrix combo.
Proof.
  induction matrix as [|[key versions] matrix IH]; intros combo Hin.
  - destruct Hin as [<-|[]]. constructor.
  - cbn [kept_dims map cartesian fst snd] in Hin.
    apply in_flat_map in Hin as [v [Hv Hin]].
    apply in_map_iff in Hin as [rest [<- Hrest]].
    unfold kept in Hv. apply filter_In in Hv as [Hv Hkeep].
    apply negb_true_iff in Hkeep.
    constructor; [now repeat split | now apply IH].
Qed.

(** X16: the shape of a combination.  For a matrix that names no dimension
    twice, every combination [generate] produces assigns the dimensions of
    the matrix, each once and in the order of the manifest, and the value
    it gives a dimension is one of the values the matrix lists for it that
    the filter does not exclude. *)
Theorem generate_assigns_every_dimension (matrix : Js.obj (list string))
    (filter : option (Js.obj string)) (combo : combination) :
  NoDup (Js.keys matrix) ->
  In combo (combinations_of matrix filter) ->
  Js.keys combo = Js.keys matrix
  /\ Forall2 (fun d kv =>
                fst kv = fst d
                /\ In (snd kv) (snd d)
                /\ filtered_out filter (fst d) (snd kv) = false)
             matrix combo.
Proof.
  intros Hkeys Hin. rewrite (@combinations_of_kept matrix filter Hkeys) in Hin.
  pose proof (cartesian_kept_shape filter matrix combo Hin) as Hshape.
  split; [|exact Hshape].
  unfold Js.keys. clear Hin Hkeys.
  induction Hshape as [|d kv matrix combo [Hk _] _ IH]; [reflexivity|].
  cbn [map]. now rewrite Hk, IH.
Qed.

Lemma generate_assigns_every_dimension_witness :
  Js.keys [("postgres", "15"); ("redis", "7")] = Js.keys Matrix.example
  /\ Forall2 (fun d kv =>
                fst kv = fst d
                /\ In (snd kv) (snd d)
                /\ filtered_out (Some [("redis", "7")]) (fst d) (snd kv)
                   = false)
             Matrix.example [("postgres", "15"); ("redis", "7")].
Proof.
  apply (@generate_assigns_every_dimension Matrix.example
           (Some [("redis", "7")]) [("postgres", "15"); ("redis", "7")]).
  - repeat constructor; cbn; intuition discriminate.
  - cbn. intuition.
Defined.




(* ------------------------------------------------------------------------ *)
(** ** Chaos: injection and recovery *)

Lemma run_chaos_recover_checkpoint (checkpoint : string)
    (service : option string) (w : world) :
  Js.truthy checkpoint = true ->
  run (chaos_recover (Some checkpoint) service) w
  = (exec_world ("vers rollback " ++ checkpoint) w,
     Returned
       (Recovered "rollback" checkpoint
          (Js.or_str
             (stdout (vers_output
                        (exec_answer ("vers rollback " ++ checkpoint) w)))
             (stderr (vers_output
                        (exec_answer ("vers rollback " ++ checkpoint) w)))))).
Proof.
  intro Htruthy. unfold chaos_recover. cbn [Js.truthy_opt Js.or_else].
  rewrite Htruthy. rewrite run_bind, run_execVers. reflexivity.
Qed.

(** X18: recovery undoes an injection.  [chaos_recover] called with the
    [rollback_checkpoint] that [chaos_inject] reported rolls back to the
    very tag [chaos_inject] committed before it acted, whatever [service]
    it is given besides: the three commands spawned are the commit of the
    tag, the chaos command and [vers rollback] of the same tag; no service
    is restarted. *)
Theorem chaos_recover_rolls_back_injection (service : string)
    (action : ChaosAction) (duration : option string) (intensity : option Z)
    (restart : option string) (w : world) :
  let tag := chaos_checkpoint service w in
  let injected := run (chaos_inject service action duration intensity) w in
  exists report output evs,
    snd injected = Returned report
    /\ rollback_checkpoint report = tag
    /\ snd (run (chaos_recover (Some (rollback_checkpoint report)) restart)
                (fst injected))
       = Returned (Recovered "rollback" tag output)
    /\ log (fst (run (chaos_recover (Some (rollback_checkpoint report))
                                    restart)
                     (fst injected)))
       = (log w ++ evs)%list
    /\ issued evs
       = [ commit_cmd tag;
           "vers " ++ chaosCommand service action duration intensity;
           "vers rollback " ++ tag ].
Proof.
  intros tag injected. subst injected. unfold chaos_inject.
  rewrite run_bind. cbn [run].
  rewrite run_bind, run_execVers. rewrite run_bind, run_execVers.
  cbn [run fst snd]. fold (chaos_checkpoint service w). fold tag.
  do 3 eexists. split; [reflexivity|]. cbn [rollback_checkpoint].
  rewrite (run_chaos_recover_checkpoint tag restart _ eq_refl).
  cbn [fst snd]. split; [reflexivity|]. split; [reflexivity|].
  split; [rewrite !log_exec_world, <- !app_assoc; reflexivity|].
  reflexivity.
Qed.

(* ------------------------------------------------------------------------ *)
(** ** Branches for web tests *)

Lemma str_app_assoc (a b c : string) : (a ++ b) ++ c = a ++ b ++ c.
Proof. induction a as [|x a IH]; cbn; [reflexivity | now rewrite IH]. Qed.

Lemma run_create_branches (prefix : string) (scenarios : list string) :
  forall (branches : list string) (w : world),
  exists w' evs,
    run (create_branches prefix scenarios branches) w
    = (w', Returned (branches ++ map (web_branch prefix) scenarios)%list)
    /\ log w' = (log w ++ evs)%list
    /\ issued evs
       = map (fun scenario =>
                "vers branch --alias " ++ web_branch prefix scenario)
             scenarios.
Proof.
  induction scenarios as [|scenario rest IH]; intros branches w.
  - exists w, []. cbn [create_branches run map issued].
    now rewrite !app_nil_r.
  - cbn [create_branches]. rewrite run_bind, run_execVers.
    match goal with
    | |- context [run (create_branches prefix rest ?b) ?w1] =>
        destruct (IH b w1) as [w' [evs [Hrun [Hlog Hiss]]]]
    end.
    exists w'. eexists.
    split; [rewrite Hrun, <- app_assoc; reflexivity|].
    split; [rewrite Hlog, log_exec_world, <- app_assoc; reflexivity|].
    cbn [app issued map]. now rewrite Hiss.
Qed.

(** X19: [web_test_branch] always answers.  It commits the checkpoint
    [<prefix>-baseline] first (the tag bears no timestamp), then spawns one
    [vers branch --alias <prefix>-<scenario>] per scenario, in the order
    given, and never a checkout.  Whatever these commands answer, the reply
    lists one branch per scenario, in the same order. *)
Theorem web_test_branch_commits_then_branches (prefix : string)
    (scenarios : list string) (w : world) :
  exists r evs,
    snd (run (web_test_branch prefix scenarios) w) = Returned r
    /\ log (fst (run (web_test_branch prefix scenarios) w))
       = (log w ++ evs)%list
    /\ issued evs
       = commit_cmd (prefix ++ "-baseline")
         :: map (fun scenario =>
                   "vers branch --alias " ++ web_branch prefix scenario)
                scenarios
    /\ web_baseline r = prefix ++ "-baseline"
    /\ web_branches r = map (web_branch prefix) scenarios.
Proof.
  unfold web_test_branch. rewrite run_bind, run_execVers, run_bind.
  match goal with
  | |- context [run (create_branches prefix scenarios []) ?w1] =>
      destruct (run_create_branches prefix scenarios [] w1)
        as [w' [evs [Hrun [Hlog Hiss]]]]
  end.
  rewrite Hrun. cbn [run fst snd app web_baseline web_branches].
  do 2 eexists. split; [reflexivity|].
  split; [rewrite Hlog, log_exec_world, <- app_assoc; reflexivity|].
  split; [|split; reflexivity].
  cbn [app issued]. rewrite Hiss. unfold commit_cmd.
  now rewrite str_app_assoc.
Qed.

(* ------------------------------------------------------------------------ *)
(** ** Comparing branches *)

Lemma get_set_defined {V : Type} (k k' : string) (v : V) (o : Js.obj V) :
  Js.get k o <> None -> Js.get k (Js.set k' v o) <> None.
Proof.
  intro H. destruct (String.eqb_spec k k') as [->|Hne].
  - rewrite get_set_same. discriminate.
  - now rewrite get_set_other.
Qed.

Lemma run_compare_aspects (branch1 branch2 : string)
    (compareAspects : list Aspect) :
  forall (comparison : Js.obj (Js.obj CompareField)) (w : world),
  exists evs,
    log (fst (run (compare_aspects branch1 branch2 compareAspects comparison)
                  w))
    = (log w ++ evs)%list
    /\ match snd (run (compare_aspects branch1 branch2 compareAspects
                                       comparison) w) with
       | Returned result =>
           issued evs = probe_commands branch1 branch2 compareAspects
           /\ (forall aspect, In aspect compareAspects ->
                 Js.get (aspect_name aspect) result <> None)
           /\ (forall k, Js.get k comparison <> None ->
                 Js.get k result <> None)
       | Threw _ =>
           exists more,
             (issued evs ++ more)%list
             = probe_commands branch1 branch2 compareAspects
       end.
Proof.
  induction compareAspects as [|aspect rest IH]; intros comparison w.
  - exists []. cbn [compare_aspects run fst snd]. rewrite app_nil_r.
    split; [reflexivity|]. split; [reflexivity|].
    split; [intros aspect [] | auto].
  - cbn [compare_aspects]. rewrite run_bind, run_execVers.
    rewrite run_bind, run_execAsync.
    set (w1 := exec_world ("vers " ++ "checkout " ++ branch1) w).
    destruct (exec_answer (probe_cmd aspect) w1) as [out1|message].
    + rewrite run_bind, run_execVers, run_bind, run_execAsync.
      set (w2 := exec_world (probe_cmd aspect) w1).
      set (w3 := exec_world ("vers " ++ "checkout " ++ branch2) w2).
      destruct (exec_answer (probe_cmd aspect) w3) as [out2|message].
      * match goal with
        | |- context [run (compare_aspects branch1 branch2 rest ?c) ?w4] =>
            destruct (IH c w4) as [evs [Hlog Hcase]];
              destruct (run (compare_aspects branch1 branch2 rest c) w4)
              as [w' [result|e]]
        end; cbn [fst snd] in *.
        -- eexists. split.
           { rewrite Hlog. subst w3 w2 w1.
             rewrite !log_exec_world, <- !app_assoc. reflexivity. }
           destruct Hcase as [Hiss [Hin Hkeep]].
           split; [rewrite !issued_app; cbn [issued app]; rewrite Hiss;
                   reflexivity|].
           split; [|intros k Hk; now apply Hkeep, get_set_defined].
           intros a [<-|Ha]; [|now apply Hin].
           apply Hkeep. rewrite get_set_same. discriminate.
        -- eexists. split.
           { rewrite Hlog. subst w3 w2 w1.
             rewrite !log_exec_world, <- !app_assoc. reflexivity. }
           destruct Hcase as [more Hiss].
           exists more. rewrite !issued_app. cbn [issued app].
           rewrite Hiss. reflexivity.
      * cbn [fst snd]. eexists. split.
        { subst w3 w2 w1. rewrite !log_exec_world, <- !app_assoc.
          reflexivity. }
        exists (probe_commands branch1 branch2 rest). reflexivity.
    + cbn [fst snd]. eexists. split.
      { subst w1. rewrite !log_exec_world, <- !app_assoc. reflexivity. }
      exists (("vers checkout " ++ branch2) :: probe_cmd aspect
              :: probe_commands branch1 branch2 rest).
      reflexivity.
Qed.

(** X20: a comparison of two branches.  For each aspect in turn
    [integration_compare_branches] checks out the first branch, probes,
    checks out the second branch and probes again, and spawns nothing
    else.  When it answers, all these commands were spawned, every
    requested aspect has an entry in the reply, and the environment is
    left checked out on the second branch.  A probe that fails rejects the
    whole comparison at that point: what was spawned is a first part of the
    commands, and earlier aspects are not reported. *)
Theorem integration_compare_branches_probes (branch1 branch2 : string)
    (aspects : option (list Aspect)) (w : world) :
  let done := run (integration_compare_branches branch1 branch2 aspects) w in
  exists evs,
    log (fst done) = (log w ++ evs)%list
    /\ match snd done with
       | Returned comparison =>
           issued evs
           = probe_commands branch1 branch2 (aspects_or_default aspects)
           /\ forall aspect,
                In aspect (aspects_or_default aspects) ->
                Js.get (aspect_name aspect) comparison <> None
       | Threw _ =>
           exists more,
             (issued evs ++ more)%list
             = probe_commands branch1 branch2 (aspects_or_default aspects)
       end.
Proof.
  intro done. subst done. unfold integration_compare_branches.
  fold (aspects_or_default aspects).
  destruct (run_compare_aspects branch1 branch2 (aspects_or_default aspects)
              [] w) as [evs [Hlog Hcase]].
  exists evs. split; [exact Hlog|].
  destruct (snd (run (compare_aspects branch1 branch2
                        (aspects_or_default aspects) []) w)).
  - destruct Hcase as [Hiss [Hin _]]. now split.
  - exact Hcase.
Qed.

(* ------------------------------------------------------------------------ *)
(** ** Queries and commands *)

Lemma escape_quotes_head (query : string) (c : ascii) (rest : string) :
  escape_quotes query = String c rest -> Ascii.eqb c "'"%char = false.
Proof.
  destruct query as [|c0 query]; cbn; [discriminate|].
  destruct (Ascii.eqb c0 "'"%char) eqn:E; intro H; injection H as <- _.
  - reflexivity.
  - exact E.
Qed.

Lemma escape_quotes_no_unescaped (query : string) :
  forall after_backslash,
    unescaped_quote after_backslash (escape_quotes query) = false.
Proof.
  induction query as [|c query IH]; intro b; [reflexivity|].
  cbn [escape_quotes]. destruct (Ascii.eqb c "'"%char) eqn:E.
  - cbn. apply IH.
  - cbn [unescaped_quote]. rewrite E. cbn. apply IH.
Qed.

(** X21: the escaping of a query.  [db_query] puts a backslash before every
    single quote of the query and changes nothing else: in the escaped text
    every single quote comes right after a backslash, and reading each
    backslash-quote pair as a quote gives back the query, so that no two
    queries are escaped to the same text. *)
Theorem escape_quotes_escapes_every_quote (query : string) :
  unescaped_quote false (escape_quotes query) = false
  /\ unescape (escape_quotes query) = query
  /\ forall other, escape_quotes other = escape_quotes query -> other = query.
Proof.
  assert (Hback : forall q, unescape (escape_quotes q) = q).
  { induction q as [|c q IH]; [reflexivity|].
    cbn [escape_quotes]. destruct (Ascii.eqb c "'"%char) eqn:E.
    - apply Ascii.eqb_eq in E. subst c. cbn. now rewrite IH.
    - cbn [unescape]. destruct (escape_quotes q) as [|c' rest] eqn:Hq.
      + cbn in IH. now subst q.
      + rewrite (escape_quotes_head q Hq), andb_false_r. now rewrite IH. }
  split; [apply escape_quotes_no_unescaped|]. split; [apply Hback|].
  intros other Heq. rewrite <- (Hback other), Heq. apply Hback.
Qed.

(** X22: a failing command.  When the command line fails, [db_query],
    which spawns it with [execAsync], rejects with the error message,
    whereas [vers_execute], which goes through [execVers], answers with the
    error message as its text. *)
Theorem db_query_rejects_vers_execute_relays (query command : string)
    (database service : option string) (interactive : option bool)
    (w : world) (message : string) :
  exec_answer (db_query_cmd query database service) w = Rejected message ->
  exec_answer (execute_cmd command service interactive) w
  = Rejected message ->
  snd (run (db_query query database service) w) = Threw message
  /\ snd (run (vers_execute command service interactive) w)
     = Returned message
  /\ issued (log (fst (run (db_query query database service) w)))
     = (issued (log w) ++ [db_query_cmd query database service])%list
  /\ issued (log (fst (run (vers_execute command service interactive) w)))
     = (issued (log w) ++ [execute_cmd command service interactive])%list.
Proof.
  intros Hdb Hexec. unfold db_query, vers_execute.
  rewrite !run_bind, run_execAsync, run_execVers, Hdb.
  change ("vers " ++ "execute " ++ _)
    with (execute_cmd command service interactive).
  rewrite Hexec. cbn [run fst snd vers_output].
  split; [reflexivity|]. split.
  { unfold relay, Js.or_str, Js.truthy. cbn [stderr stdout].
    destruct (String.eqb_spec message ""); cbn; [now subst | reflexivity]. }
  rewrite !log_exec_world, !issued_app. split; reflexivity.
Qed.

Lemma db_query_rejects_vers_execute_relays_witness :
  snd (run (db_query "SELECT 'a'" None (Some "postgres")) Outage.project)
  = Threw "unreachable"
  /\ snd (run (vers_execute "ls" (Some "postgres") None) Outage.project)
     = Returned "unreachable".
Proof.
  destruct (@db_query_rejects_vers_execute_relays "SELECT 'a'" "ls" None
              (Some "postgres") None Outage.project "unreachable"
              eq_refl eq_refl)
    as [Hdb [Hexec _]].
  split; [exact Hdb | exact Hexec].
Defined.

(* ------------------------------------------------------------------------ *)
(** ** Deployment *)

Lemma deploy_args_line (environment : Environment) (domain : option string)
    (wait : option bool) :
  "vers " ++ "integration deploy " ++ deploy_args environment domain wait
  = deploy_cmd environment domain wait.
Proof.
  assert (Hnil : forall s : string, s ++ "" = s).
  { induction s as [|c s IH]; cbn; [reflexivity | now rewrite IH]. }
  unfold deploy_args, deploy_cmd, Js.join.
  destruct environment; destruct (Js.truthy_opt domain);
    destruct wait as [[|]|]; cbn; rewrite ?Hnil; reflexivity.
Qed.

(** X23: what [integration_deploy] checks before it deploys.  On a project
    whose manifest loads: without a deploy configuration for the
    environment it answers with an error and spawns nothing; with one, it
    always answers, and spawns the checkout of the branch when one is
    given, then the deployment, and nothing else.  The deployment command
    names the environment, the domain when one is given, and carries
    [--wait] unless [wait] is [false]. *)
Theorem integration_deploy_checks_then_deploys
    (parse : string -> option (option string * option string))
    (environment : Environment) (branch domain : option string)
    (wait : option bool) (w : world) (m : IntegrationManifest.t) :
  loads w m ->
  let done := run (integration_deploy parse environment branch domain wait) w in
  match deploy_config m environment with
  | None =>
      snd done
      = Returned (DeployText ("Error: No deploy configuration for '"
                              ++ environment_name environment ++ "'."))
      /\ log (fst done) = log w
  | Some _ =>
      exists answer evs,
        snd done = Returned answer
        /\ log (fst done) = (log w ++ evs)%list
        /\ issued evs
           = ((if Js.truthy_opt branch
               then [("vers checkout " ++ Js.or_else branch "")%string]
               else [])
              ++ [deploy_cmd environment domain wait])%list
  end.
Proof.
  intros Hloads done. subst done. unfold integration_deploy.
  rewrite run_bind, (run_readManifest_loads Hloads). cbv zeta.
  fold (deploy_config m environment).
  destruct (deploy_config m environment) as [deployConfig|];
    [|split; reflexivity].
  rewrite run_bind.
  assert (Hcheckout : exists w1 evs1,
    run (if Js.truthy_opt branch
         then execVers ("checkout " ++ Js.or_else branch "") ;; Ret tt
         else Ret tt) (bind_manifest m w)
    = (w1, Returned tt)
    /\ log w1 = (log w ++ evs1)%list
    /\ issued evs1
       = if Js.truthy_opt branch
         then [("vers checkout " ++ Js.or_else branch "")%string] else []).
  { destruct (Js.truthy_opt branch).
    - rewrite run_bind, run_execVers. cbn [run].
      do 2 eexists. split; [reflexivity|].
      split; [rewrite log_exec_world; reflexivity | reflexivity].
    - exists (bind_manifest m w), []. cbn. now rewrite app_nil_r. }
  destruct Hcheckout as [w1 [evs1 [Hrun1 [Hlog1 Hiss1]]]].
  rewrite Hrun1, run_bind, run_execVers, deploy_args_line.
  set (out := vers_output _).
  assert (Hanswer : forall t : task DeployReply,
            (exists answer, t = Ret answer) ->
            exists answer evs,
              snd (run t (exec_world (deploy_cmd environment domain wait) w1))
              = Returned answer
              /\ log (fst (run t (exec_world
                                    (deploy_cmd environment domain wait) w1)))
                 = (log w ++ evs)%list
              /\ issued evs
                 = ((if Js.truthy_opt branch
                     then [("vers checkout " ++ Js.or_else branch "")%string]
                     else [])
                    ++ [deploy_cmd environment domain wait])%list).
  { intros t [answer ->]. exists answer. eexists. cbn [run fst snd].
    split; [reflexivity|].
    split; [rewrite log_exec_world, Hlog1, <- app_assoc; reflexivity|].
    rewrite issued_app, Hiss1. reflexivity. }
  apply Hanswer.
  destruct (Js.truthy (stderr out) && negb (Js.includes (stderr out) "deployed"));
    [eexists; reflexivity|].
  destruct (parse (stdout out)) as [[url id]|]; eexists; reflexivity.
Qed.

Lemma integration_deploy_checks_then_deploys_witness :
  exists answer evs,
    snd (run (integration_deploy (fun _ => None) staging (Some "release")
                                 None (Some false))
             Release.project)
    = Returned answer
    /\ log (fst (run (integration_deploy (fun _ => None) staging
                         (Some "release") None (Some false))
                     Release.project))
       = evs
    /\ issued evs
       = [ "vers checkout release";
           "vers integration deploy --environment staging" ].
Proof.
  exact (@integration_deploy_checks_then_deploys (fun _ => None) staging
           (Some "release") None (Some false) Release.project
           Release.manifest
           (ex_intro _ "name: demo" (conj eq_refl eq_refl))).
Defined.

(* ------------------------------------------------------------------------ *)
(** ** Parallel test runs *)

Lemma advance_runTest (prefix suiteName : string) (suiteConfig : TestSuite.t)
    (w : world) :
  fst (advance (runTest prefix suiteName (Some suiteConfig)) w)
  = record (Issued ("vers branch --alias "
                    ++ first_alias prefix suiteName suiteConfig)) w.
Proof.
  unfold runTest, first_alias.
  destruct (TestSuite.branches suiteConfig) as [[|b bs]|]; reflexivity.
Qed.

Lemma start_all_runTest (prefix : string) (tests : Js.obj TestSuite.t) :
  forall w,
    log (fst (start_all
                (map (fun nc => runTest prefix (fst nc) (snd nc))
                     (map (fun kv => (fst kv, Some (snd kv))) tests))
                w))
    = (log w
       ++ map (fun kv => Issued ("vers branch --alias "
                                 ++ first_alias prefix (fst kv) (snd kv)))
              tests)%list.
Proof.
  induction tests as [|[name config] rest IH]; intro w.
  - cbn. now rewrite app_nil_r.
  - cbn [map start_all fst snd].
    pose proof (advance_runTest prefix name config w) as Hadv.
    destruct (advance (runTest prefix name (Some config)) w) as [w1 t1].
    cbn [fst] in Hadv. subst w1.
    match goal with
    | |- context [start_all ?ts ?w1] =>
        specialize (IH w1); destruct (start_all ts w1) as [w2 ts1]
    end.
    cbn [fst] in *. rewrite IH. cbn [record log].
    now rewrite <- app_assoc.
Qed.

(** X24: a parallel test run starts every suite before anything settles.
    When all suites are run with [parallel] set, [integration_test] commits
    the baseline, waits for the commit to settle, and then spawns the
    creation of the first branch of every suite, in the order of the
    manifest, before any of these commands settles: the suites' commands
    are in flight together, whatever the order in which they settle. *)
Theorem integration_test_parallel_starts_all_suites (suite : option string)
    (branch_prefix : option string) (w : world) (m : IntegrationManifest.t)
    (tests : Js.obj TestSuite.t) :
  loads w m ->
  IntegrationManifest.tests m = Some tests ->
  Js.truthy_opt suite = false ->
  let prefix := Js.or_else branch_prefix "test" in
  let commit :=
    commit_cmd (baseline_tag prefix (date_now (environment w) (log w))) in
  exists r rest,
    log (fst (integration_test suite (Some true) branch_prefix w))
    = (log w
       ++ [Issued commit; Settled commit r]
       ++ map (fun kv => Issued ("vers branch --alias "
                                 ++ first_alias prefix (fst kv) (snd kv)))
              tests
       ++ rest)%list.
Proof.
  intros Hloads Htests Hsuite prefix commit.
  unfold integration_test, and_then at 1, await at 1.
  rewrite (run_readManifest_loads Hloads), Htests, Hsuite.
  unfold and_then at 1, await at 1.
  rewrite run_bind, run_now, run_execVers.
  cbn [Js.flag]. fold prefix.
  set (w1 := exec_world _ (bind_manifest m w)).
  set (ts := map (fun nc => runTest prefix (fst nc) (snd nc)) _).
  assert (Hall : exists rest,
            log (fst (promise_all ts w1))
            = (log w1
               ++ map (fun kv => Issued ("vers branch --alias "
                                         ++ first_alias prefix (fst kv)
                                                        (snd kv)))
                      tests
               ++ rest)%list).
  { unfold promise_all.
    pose proof (start_all_runTest prefix tests w1) as Hstart. fold ts in Hstart.
    destruct (start_all ts w1) as [w2 ts1]. cbn [fst] in Hstart.
    pose proof (settle_in_order_extends (settle_order (environment w1)) ts1 w2)
      as [e2 H2].
    destruct (settle_in_order _ ts1 w2) as [w3 ts2]. cbn [fst] in H2.
    pose proof (drain_extends ts2 w3) as [e3 H3].
    exists (e2 ++ e3)%list. rewrite H3, H2, Hstart, <- !app_assoc.
    reflexivity. }
  destruct Hall as [rest Hall].
  unfold and_then, reply.
  destruct (promise_all ts w1) as [w2 [allResults|e]]; cbn [fst] in *.
  - eexists. exists rest. rewrite Hall. subst w1.
    rewrite log_exec_world. cbn [bind_manifest log].
    rewrite <- !app_assoc. reflexivity.
  - eexists. exists rest. rewrite Hall. subst w1.
    rewrite log_exec_world. cbn [bind_manifest log].
    rewrite <- !app_assoc. reflexivity.
Qed.

Lemma integration_test_parallel_starts_all_suites_witness :
  exists r rest,
    log (fst (integration_test None (Some true) None
                (Sample.project
                   (Sample.quiet_env Scenarios.shop [1; 0; 0; 1]%nat))))
    = ([ Issued (commit_cmd (baseline_tag "test" 0));
         Settled (commit_cmd (baseline_tag "test" 0)) r ]
       ++ [ Issued "vers branch --alias test-checkout-credit-card";
            Issued "vers branch --alias test-unit" ]
       ++ rest)%list.
Proof.
  exact (@integration_test_parallel_starts_all_suites None None
           (Sample.project (Sample.quiet_env Scenarios.shop [1; 0; 0; 1]%nat))
           Scenarios.shop
           [ ("checkout", Scenarios.checkout);
             ("unit", TestSuite.mk "npm run test:unit" None None None None) ]
           (ex_intro _ "name: demo" (conj eq_refl eq_refl))
           eq_refl eq_refl).
Defined.
